(** * Scan-state polling in camayoc: [wait_until_state] and [wait_for_scan]

    A shallow embedding of the two waiters of the camayoc test suite,

    - [wait_until_state] of [camayoc/tests/qcs/api/v1/utils.py], which polls
      a [Scan] object of the API client, and
    - [wait_for_scan] of [camayoc/tests/qcs/cli/test_scans.py], which polls
      the command line client through [scan_job],

    together with the properties that the specification of the polling
    protocol states about them.

    The remote server is an oracle: every call that reaches it
    ([scan.status()], [scan.read()], [scan.results()], [scan_job(...)]) is
    answered as a function of the history of the run so far, and may fail.
    The history (calls with their replies, and sleeps) is the state that the
    waiters thread through; timeouts are Python integers, modelled in [Z]. *)

From Stdlib Require Import ZArith List String Ascii Bool Lia DecimalString.
From Equations Require Import Equations.
Import ListNotations.

(* ===================================================================== *)
(** ** Python values, exceptions and [str.format] *)
(* ===================================================================== *)

Module Py.

Local Open Scope string_scope.

(** The values a status can take: the server answers with a string, and
    a missing status reads as [None]. Integers occur in job records. *)
Inductive value : Type :=
| PyNone
| PyStr (s : string)
| PyInt (z : Z).

(** Truth value of an object, as [not x] consults it. *)
Definition truthy (v : value) : bool :=
  match v with
  | PyNone => false
  | PyStr s => negb (s =? EmptyString)
  | PyInt z => negb (z =? 0)%Z
  end.

(** [v == s] for a string [s]. *)
Definition eq_str (v : value) (s : string) : bool :=
  match v with
  | PyStr x => x =? s
  | _ => false
  end.

(** [str(v)], as [str.format] renders an argument for an empty field. *)
Definition str (v : value) : string :=
  match v with
  | PyNone => "None"
  | PyStr s => s
  | PyInt z => NilZero.string_of_int (Z.to_int z)
  end.

(** A dictionary; the first binding of a key is the one that counts. *)
Definition dict : Type := list (string * value).

Fixpoint get (d : dict) (k : string) : option value :=
  match d with
  | [] => None
  | (k', v) :: d' => if k' =? k then Some v else get d' k
  end.

(** An error raised by a collaborator (HTTP client, command line client),
    opaque to the waiters. *)
Definition fault : Type := string.

Inductive exn : Type :=
| WaitTimeError (msg : string)
| FailedScanException (msg : string)
| IndexError (index : nat)          (* str.format: no argument [index] *)
| ValueError (msg : string)         (* str.format: a single brace *)
| KeyError (key : string)
| UnboundLocalError (name : string)
| Propagated (e : fault).

Inductive outcome (A : Type) : Type :=
| Ret (a : A)
| Exc (e : exn).
Arguments Ret {A} a.
Arguments Exc {A} e.

Definition nl : string := String (ascii_of_nat 10) EmptyString.
Definition dq : string := String (ascii_of_nat 34) EmptyString.

(** [template.format(args...)] for templates whose replacement fields are
    all the automatic field [{}], which is what the waiters use. The
    [k]-th field takes the [k]-th argument; a field with no argument left
    raises [IndexError]; arguments left over are ignored. A doubled brace
    stands for the brace itself. Named and numbered fields do not occur in
    the templates and are not modelled: a brace that opens one is reported
    like a single brace. *)
Fixpoint format_from (k : nat) (template : string) (args : list string)
  : outcome string :=
  match template with
  | EmptyString => Ret EmptyString
  | String "{" (String "}" rest) =>
      match args with
      | [] => Exc (IndexError k)
      | a :: args' =>
          match format_from (S k) rest args' with
          | Ret s => Ret (a ++ s)
          | Exc e => Exc e
          end
      end
  | String "{" (String "{" rest) =>
      match format_from k rest args with
      | Ret s => Ret (String "{" s)
      | Exc e => Exc e
      end
  | String "}" (String "}" rest) =>
      match format_from k rest args with
      | Ret s => Ret (String "}" s)
      | Exc e => Exc e
      end
  | String "{" _ => Exc (ValueError "Single '{' encountered in format string")
  | String "}" _ => Exc (ValueError "Single '}' encountered in format string")
  | String c rest =>
      match format_from k rest args with
      | Ret s => Ret (String c s)
      | Exc e => Exc e
      end
  end.

Definition format (template : string) (args : list string) : outcome string :=
  format_from 0 template args.

(** Number of [{}] fields of a template. *)
Fixpoint fields (template : string) : nat :=
  match template with
  | EmptyString => 0
  | String "{" (String "}" rest) => S (fields rest)
  | String "{" (String "{" rest) => fields rest
  | String "}" (String "}" rest) => fields rest
  | String _ rest => fields rest
  end.

End Py.

(* ===================================================================== *)
(** ** The remote system and the effects of a waiter *)
(* ===================================================================== *)

Module Sim.

Import Py.

(** What a collaborator answers: a value, or an error of its own. *)
Inductive reply (A : Type) : Type :=
| Reply (a : A)
| Fault (e : fault).
Arguments Reply {A} a.
Arguments Fault {A} e.

(** One observable step of a waiter. *)
Inductive event : Type :=
| EvStatus (r : reply value)              (* scan.status() *)
| EvRead (r : reply dict)                 (* scan.read().json() *)
| EvResults (r : reply dict)              (* scan.results().json() *)
| EvScanJob (id : string) (r : reply dict) (* scan_job({'id': id}) *)
| EvSleep (secs : Z).                     (* time.sleep(secs) *)

(** The history of a run, most recent event first. *)
Definition world : Type := list event.

(** Invocations of the status source. *)
Definition is_poll (e : event) : bool :=
  match e with
  | EvStatus _ | EvScanJob _ _ => true
  | _ => false
  end.

Definition is_sleep (e : event) : bool :=
  match e with
  | EvSleep _ => true
  | _ => false
  end.

Definition polls (w : world) : nat := List.length (filter is_poll w).
Definition sleeps (w : world) : nat := List.length (filter is_sleep w).

(** Total time slept. *)
Fixpoint slept (w : world) : Z :=
  match w with
  | [] => 0
  | EvSleep secs :: w' => secs + slept w'
  | _ :: w' => slept w'
  end.

(** The error with which a call failed, if it did. *)
Definition fault_of (e : event) : option fault :=
  match e with
  | EvStatus (Fault f) | EvRead (Fault f) | EvResults (Fault f)
  | EvScanJob _ (Fault f) => Some f
  | _ => None
  end.

(** Computations that read and extend the history and may raise. *)
Definition M (A : Type) : Type := world -> outcome A * world.

Definition ret {A} (a : A) : M A := fun w => (Ret a, w).

Definition raise {A} (e : exn) : M A := fun w => (Exc e, w).

Definition bind {A B} (m : M A) (k : A -> M B) : M B :=
  fun w =>
    match m w with
    | (Ret a, w') => k a w'
    | (Exc e, w') => (Exc e, w')
    end.

Definition lift {A} (o : outcome A) : M A := fun w => (o, w).

(** A call to a collaborator: ask the oracle, log the call, and let an
    error of the collaborator escape. *)
Definition call {A} (oracle : world -> reply A) (log : reply A -> event)
  : M A :=
  fun w =>
    match oracle w with
    | Reply a => (Ret a, log (Reply a) :: w)
    | Fault f => (Exc (Propagated f), log (Fault f) :: w)
    end.

(** [time.sleep(secs)] *)
Definition sleep (secs : Z) : M unit := fun w => (Ret tt, EvSleep secs :: w).

(** [d[k]] *)
Definition getitem (d : dict) (k : string) : M value :=
  match get d k with
  | Some v => ret v
  | None => raise (KeyError k)
  end.

(** A status source in the manner of a mock with a list of return values:
    the [n]-th invocation answers with the [n]-th element, and the mock
    raises [StopIteration] once the list is used up. *)
Definition replay {A} (answers : list A) : world -> reply A :=
  fun w =>
    match nth_error answers (polls w) with
    | Some a => Reply a
    | None => Fault "StopIteration"%string
    end.

(** A job whose status is a function of the time that has passed, counted
    in sleeps. *)
Definition timeline {A} (job : nat -> A) : world -> reply A :=
  fun w => Reply (job (sleeps w)).

End Sim.

Declare Scope waiter_scope.
Delimit Scope waiter_scope with waiter.
Notation "x <- m ;; k" := (Sim.bind m (fun x => k))
  (at level 61, m at next level, right associativity) : waiter_scope.
Notation "m ;; k" := (Sim.bind m (fun _ => k))
  (at level 61, right associativity) : waiter_scope.

(* ===================================================================== *)
(** ** [camayoc/tests/qcs/api/v1/utils.py]: [wait_until_state] *)
(* ===================================================================== *)

Module Api.

Import Py Sim.
Local Open Scope string_scope.
Local Open Scope Z_scope.

(** The part of a [camayoc.qcs_models.Scan] that the waiter touches. Each
    method is a request to the server. *)
Record Scan : Type := {
  _id : value;
  status : world -> reply value;
  read : world -> reply dict;
  results : world -> reply dict
}.

Section Waiter.

(** [pprint.pformat] *)
Variable pformat : dict -> string.

Definition timed_out_template : string :=
  "You have called wait_until_state() on a scan with ID={} and" ++ nl ++
  "the scan timed out while waiting to achieve the state=" ++ dq ++ "{}" ++ dq ++ nl ++
  "When the scan timed out, it had the state=" ++ dq ++ "{}" ++ dq ++ "." ++ nl ++
  "The full details of the scan were " ++ nl ++ "{}" ++ nl ++
  "The " ++ dq ++ "results" ++ dq ++ " available from the scan were " ++ nl ++ "{}" ++ nl.

Definition failed_template : string :=
  "You have called wait_until_state() on a scan with ID={} and" ++ nl ++
  "the scan failed instead of acheiving state={}." ++ nl ++
  "When it failed, the details about the scan were " ++ nl ++ "{}" ++ nl ++
  "The " ++ dq ++ "results" ++ dq ++ " available from the scan were " ++ nl ++ "{}" ++ nl.

(** The first conjunct of the loop test,
    [not scan.status() or not scan.status() == state]. *)
Definition not_in_state (scan : Scan) (state : string) : M bool :=
  (s <- call (status scan) EvStatus ;;
   if negb (truthy s) then ret true
   else
     s' <- call (status scan) EvStatus ;;
     ret (negb (eq_str s' state)))%waiter.

(** [raise WaitTimeError(...)]: the arguments of [format] are evaluated
    from left to right, then the message is built. *)
Definition raise_timed_out (scan : Scan) (state : string) : M unit :=
  (s <- call (status scan) EvStatus ;;
   d <- call (read scan) EvRead ;;
   r <- call (results scan) EvResults ;;
   msg <- lift (format timed_out_template
                  [str (_id scan); state; str s; pformat d; pformat r]) ;;
   raise (WaitTimeError msg))%waiter.

(** [if state != 'failed' and scan.status() == 'failed': raise ...] *)
Definition raise_if_failed (scan : Scan) (state : string) : M unit :=
  (if negb (state =? "failed")%string then
     s <- call (status scan) EvStatus ;;
     if eq_str s "failed" then
       msg <- lift (format failed_template [str (_id scan); state]) ;;
       raise (FailedScanException msg)
     else ret tt
   else ret tt)%waiter.

(** The body of the loop, entered with [timeout] left. *)
Definition cycle (scan : Scan) (timeout : Z) (state : string) : M unit :=
  (sleep 5 ;;
   let timeout := timeout - 5 in
   (if timeout <=? 0 then raise_timed_out scan state else ret tt) ;;
   raise_if_failed scan state)%waiter.

(** [wait_until_state(scan, timeout=120, state='completed')]. The loop
    test reads the status before it looks at the budget (the operands of
    [and] are evaluated in order); when the loop ends, the function
    returns [None]. *)
Equations? wait_until_state (scan : Scan) (timeout : Z) (state : string)
  (w : world) : outcome unit * world by wf (Z.to_nat timeout) lt :=
  wait_until_state scan timeout state w with not_in_state scan state w := {
    | (Exc e, w1) := (Exc e, w1)
    | (Ret false, w1) := (Ret tt, w1)
    | (Ret true, w1) with Z_lt_dec 0 timeout := {
      | right _ := (Ret tt, w1)
      | left _ with cycle scan timeout state w1 := {
        | (Exc e, w2) := (Exc e, w2)
        | (Ret _, w2) := wait_until_state scan (timeout - 5) state w2 } } }.
Proof. lia. Qed.

End Waiter.

End Api.

(* ===================================================================== *)
(** ** [camayoc/tests/qcs/cli/test_scans.py]: [wait_for_scan] *)
(* ===================================================================== *)

Module Cli.

Import Py Sim.
Local Open Scope string_scope.
Local Open Scope Z_scope.

(** How one pass through the loop body ends when it does not raise: with
    the [return], or at the end of the body with [result] bound. *)
Inductive pass : Type :=
| Return_
| Continue (result : dict).

Section Waiter.

(** [pprint.pformat] *)
Variable pformat : dict -> string.

(** [scan_job({'id': scan_job_id})], which runs [qpc scan job] and
    parses what it prints. *)
Variable scan_job : string -> world -> reply dict.

Definition failed_template : string :=
  "The scan with ID " ++ dq ++ "{}" ++ dq ++ " has failed unexpectedly." ++ nl ++ nl ++
  "The information about the scan is:" ++ nl ++ "{}" ++ nl.

Definition timeout_template : string :=
  "Timeout waiting for scan with ID " ++ dq ++ "{}" ++ dq ++
  " to achieve the " ++ dq ++ "{}" ++ dq ++ " status." ++ nl ++ nl ++
  "The information about the scan is:" ++ nl ++ "{}" ++ nl.

(** The body of the loop, up to and including the sleep. *)
Definition poll (scan_job_id status : string) : M pass :=
  (result <- call (scan_job scan_job_id) (EvScanJob scan_job_id) ;;
   failed <- (if negb (status =? "failed")%string then
                s <- getitem result "status" ;;
                ret (eq_str s "failed")
              else ret false) ;;
   if failed then
     msg <- lift (format failed_template [scan_job_id; pformat result]) ;;
     raise (FailedScanException msg)
   else
     s <- getitem result "status" ;;
     if eq_str s status then ret Return_
     else sleep 5 ;; ret (Continue result))%waiter.

(** The [raise WaitTimeError(...)] after the loop. [result] is a local
    variable of the function that only the loop body assigns. *)
Definition raise_timeout (scan_job_id status : string)
  (result : option dict) : M unit :=
  match result with
  | None => raise (UnboundLocalError "result")
  | Some r =>
      (msg <- lift (format timeout_template
                      [scan_job_id; status; pformat r]) ;;
       raise (WaitTimeError msg))%waiter
  end.

(** The loop and what follows it, entered with the binding of [result]
    that the passes so far have left. *)
Equations? wait_for_scan_from (result : option dict)
  (scan_job_id status : string) (timeout : Z) (w : world)
  : outcome unit * world by wf (Z.to_nat timeout) lt :=
  wait_for_scan_from result scan_job_id status timeout w
    with Z_lt_dec 0 timeout := {
    | right _ := raise_timeout scan_job_id status result w
    | left _ with poll scan_job_id status w := {
      | (Exc e, w1) := (Exc e, w1)
      | (Ret Return_, w1) := (Ret tt, w1)
      | (Ret (Continue r), w1) :=
          wait_for_scan_from (Some r) scan_job_id status (timeout - 5) w1 } }.
Proof. lia. Qed.

(** [wait_for_scan(scan_job_id, status='completed', timeout=900)] *)
Definition wait_for_scan (scan_job_id status : string) (timeout : Z)
  : M unit :=
  wait_for_scan_from None scan_job_id status timeout.

End Waiter.

End Cli.

(* ===================================================================== *)
(** ** Histories of runs that wait, and mocks for the examples *)
(* ===================================================================== *)

Module Runs.

Import Py Sim.
Local Open Scope string_scope.

(** [ceil(timeout / 5)], the number of polling cycles that a budget of
    [timeout] pays for. *)
Definition cycles (timeout : Z) : Z := (timeout + 4) / 5.

(** The history after [wait_for_scan] has polled the records [rs], oldest
    first, and has slept after each of them. *)
Fixpoint waited (id : string) (rs : list dict) (w : world) : world :=
  match rs with
  | [] => w
  | r :: rs' => waited id rs' (EvSleep 5 :: EvScanJob id (Reply r) :: w)
  end.

(** The status source answers such a run with the records [rs]. *)
Fixpoint answers (scan_job : string -> world -> reply dict) (id : string)
  (rs : list dict) (w : world) : Prop :=
  match rs with
  | [] => True
  | r :: rs' =>
      scan_job id w = Reply r /\
      answers scan_job id rs' (EvSleep 5 :: EvScanJob id (Reply r) :: w)
  end.

(** A record whose status is neither the one waited for nor [failed]:
    [wait_for_scan] sleeps and polls again. *)
Definition pending (status : string) (r : dict) : Prop :=
  exists s, get r "status" = Some s /\
            eq_str s status = false /\ eq_str s "failed" = false.

(** A record with the status waited for. *)
Definition reached (status : string) (r : dict) : Prop :=
  exists s, get r "status" = Some s /\ eq_str s status = true.

(** A status that is neither the one waited for nor [failed]. *)
Definition unsettled (state : string) (v : value) : Prop :=
  eq_str v state = false /\ eq_str v "failed" = false.

(** [scan.status()] already is [state], as the loop test of
    [wait_until_state] sees it. *)
Definition in_state (state : string) (v : value) : bool :=
  truthy v && eq_str v state.

(** Invocations of [scan.status()] by one loop test that reads [v]. *)
Definition test_cost (v : value) : nat := if truthy v then 2 else 1.

(** Invocations of [scan.status()] by the check for a failed scan. *)
Definition check_cost (state : string) : nat :=
  if state =? "failed" then 0 else 1.

(** Invocations of [scan.status()] by a run of [wait_until_state] that
    starts at time [t0] of a job and goes through [m] cycles before the
    loop test ends it. *)
Fixpoint status_calls (job : nat -> value) (state : string) (t0 m : nat)
  : nat :=
  match m with
  | O => test_cost (job t0)
  | S m' =>
      test_cost (job t0) + check_cost state + status_calls job state (S t0) m'
  end.

(** A printer for the examples. *)
Definition show (d : dict) : string :=
  match get d "status" with
  | Some v => "{'status': '" ++ str v ++ "'}"
  | None => "{}"
  end.

(** The record of a job in a given status. *)
Definition job (s : string) : dict := [("status", PyStr s)].

(** A command line client that answers with the given statuses in turn. *)
Definition cli_mock (statuses : list string) : string -> world -> reply dict :=
  fun _ => replay (map job statuses).

(** A scan that answers [status()] with the given statuses in turn. *)
Definition api_mock (statuses : list string) : Api.Scan :=
  {| Api._id := PyInt 7;
     Api.status := replay (map PyStr statuses);
     Api.read := fun _ => Reply (job "unknown");
     Api.results := fun _ => Reply [] |}.

(** A job that runs until the first sleep is over, and has failed then. *)
Definition running_then_failed (t : nat) : value :=
  match t with
  | O => PyStr "running"
  | S _ => PyStr "failed"
  end.




(** A scan whose status is that of a job at the time of the call. *)
Definition api_job (timeline_of : nat -> value) : Api.Scan :=
  {| Api._id := PyInt 7;
     Api.status := timeline timeline_of;
     Api.read := fun _ => Reply (job "unknown");
     Api.results := fun _ => Reply [] |}.

End Runs.

(* ===================================================================== *)
(** ** Case analyses of the loop bodies *)
(* ===================================================================== *)

Module Views.

Import Py Sim.
Local Open Scope string_scope.
Local Open Scope Z_scope.

(** The ways in which one pass through the loop body can end. *)
Variant poll_view (pformat : dict -> string)
  (scan_job : string -> world -> reply dict) (id status : string)
  (w : world) : outcome Cli.pass * world -> Prop :=
| PollFault f :
    scan_job id w = Fault f ->
    poll_view pformat scan_job id status w
      (Exc (Propagated f), EvScanJob id (Fault f) :: w)
| PollNoStatus r :
    scan_job id w = Reply r -> get r "status" = None ->
    poll_view pformat scan_job id status w
      (Exc (KeyError "status"), EvScanJob id (Reply r) :: w)
| PollFailed r s msg :
    scan_job id w = Reply r -> get r "status" = Some s ->
    status <> "failed"%string -> eq_str s "failed" = true ->
    format Cli.failed_template [id; pformat r] = Ret msg ->
    poll_view pformat scan_job id status w
      (Exc (FailedScanException msg), EvScanJob id (Reply r) :: w)
| PollReached r s :
    scan_job id w = Reply r -> get r "status" = Some s ->
    status = "failed"%string \/ eq_str s "failed" = false ->
    eq_str s status = true ->
    poll_view pformat scan_job id status w
      (Ret Cli.Return_, EvScanJob id (Reply r) :: w)
| PollWait r s :
    scan_job id w = Reply r -> get r "status" = Some s ->
    status = "failed"%string \/ eq_str s "failed" = false ->
    eq_str s status = false ->
    poll_view pformat scan_job id status w
      (Ret (Cli.Continue r), EvSleep 5 :: EvScanJob id (Reply r) :: w).

(** The ways in which the loop test can end. *)
Variant test_view (scan : Api.Scan) (state : string) (w : world)
  : outcome bool * world -> Prop :=
| TestFault f :
    Api.status scan w = Fault f ->
    test_view scan state w (Exc (Propagated f), EvStatus (Fault f) :: w)
| TestEmpty s :
    Api.status scan w = Reply s -> truthy s = false ->
    test_view scan state w (Ret true, EvStatus (Reply s) :: w)
| TestFaultAgain s f :
    Api.status scan w = Reply s -> truthy s = true ->
    Api.status scan (EvStatus (Reply s) :: w) = Fault f ->
    test_view scan state w
      (Exc (Propagated f), EvStatus (Fault f) :: EvStatus (Reply s) :: w)
| TestCompared s s' :
    Api.status scan w = Reply s -> truthy s = true ->
    Api.status scan (EvStatus (Reply s) :: w) = Reply s' ->
    test_view scan state w
      (Ret (negb (eq_str s' state)),
       EvStatus (Reply s') :: EvStatus (Reply s) :: w).

(** The ways in which the loop body can end, entered with [t] left. *)
Variant cycle_view (pformat : dict -> string) (scan : Api.Scan) (t : Z)
  (state : string) (w : world) : outcome unit * world -> Prop :=
| CycleTimeoutFault f :
    t - 5 <= 0 -> Api.status scan (EvSleep 5 :: w) = Fault f ->
    cycle_view pformat scan t state w
      (Exc (Propagated f), EvStatus (Fault f) :: EvSleep 5 :: w)
| CycleTimeoutReadFault s f :
    t - 5 <= 0 -> Api.status scan (EvSleep 5 :: w) = Reply s ->
    Api.read scan (EvStatus (Reply s) :: EvSleep 5 :: w) = Fault f ->
    cycle_view pformat scan t state w
      (Exc (Propagated f),
       EvRead (Fault f) :: EvStatus (Reply s) :: EvSleep 5 :: w)
| CycleTimeoutResultsFault s d f :
    t - 5 <= 0 -> Api.status scan (EvSleep 5 :: w) = Reply s ->
    Api.read scan (EvStatus (Reply s) :: EvSleep 5 :: w) = Reply d ->
    Api.results scan (EvRead (Reply d) :: EvStatus (Reply s) :: EvSleep 5 :: w)
    = Fault f ->
    cycle_view pformat scan t state w
      (Exc (Propagated f),
       EvResults (Fault f) :: EvRead (Reply d) :: EvStatus (Reply s)
         :: EvSleep 5 :: w)
| CycleTimeout s d r msg :
    t - 5 <= 0 -> Api.status scan (EvSleep 5 :: w) = Reply s ->
    Api.read scan (EvStatus (Reply s) :: EvSleep 5 :: w) = Reply d ->
    Api.results scan (EvRead (Reply d) :: EvStatus (Reply s) :: EvSleep 5 :: w)
    = Reply r ->
    format Api.timed_out_template
      [str (Api._id scan); state; str s; pformat d; pformat r] = Ret msg ->
    cycle_view pformat scan t state w
      (Exc (WaitTimeError msg),
       EvResults (Reply r) :: EvRead (Reply d) :: EvStatus (Reply s)
         :: EvSleep 5 :: w)
| CycleUnchecked :
    0 < t - 5 -> state = "failed"%string ->
    cycle_view pformat scan t state w (Ret tt, EvSleep 5 :: w)
| CycleCheckFault f :
    0 < t - 5 -> state <> "failed"%string ->
    Api.status scan (EvSleep 5 :: w) = Fault f ->
    cycle_view pformat scan t state w
      (Exc (Propagated f), EvStatus (Fault f) :: EvSleep 5 :: w)
| CycleFailed s :
    0 < t - 5 -> state <> "failed"%string ->
    Api.status scan (EvSleep 5 :: w) = Reply s -> eq_str s "failed" = true ->
    cycle_view pformat scan t state w
      (Exc (IndexError 2), EvStatus (Reply s) :: EvSleep 5 :: w)
| CycleChecked s :
    0 < t - 5 -> state <> "failed"%string ->
    Api.status scan (EvSleep 5 :: w) = Reply s -> eq_str s "failed" = false ->
    cycle_view pformat scan t state w
      (Ret tt, EvStatus (Reply s) :: EvSleep 5 :: w).

(** Events that are calls: no sleep among them, and a failed call is
    the last one and decides the outcome. *)
Definition calls {A} (u : world) (o : outcome A) : Prop :=
  Forall (fun e => is_sleep e = false) u /\
  forall ev f,
    In ev u -> fault_of ev = Some f ->
    o = Exc (Propagated f) /\ exists rest, u = ev :: rest.

End Views.

(* ===================================================================== *)
(** ** Configuration data and the Python operations on it *)
(* ===================================================================== *)

Module Dyn.

Local Open Scope string_scope.

#[local] Set Warnings "-register-all".

(** What [yaml.load] makes of the configuration file, and what travels in
    request bodies: scalars, lists, and dictionaries with string keys in
    the order of insertion. *)
Inductive json : Type :=
| JNone
| JBool (b : bool)
| JInt (z : Z)
| JStr (s : string)
| JList (items : list json)
| JDict (bindings : list (string * json)).

Definition dict : Type := list (string * json).

Inductive error : Type :=
| ConfigFileNotFoundError
| KeyError (key : string)
| TypeError (msg : string)
| AttributeError (attribute : string)
| UnboundLocalError (name : string)
| QCSBaseUrlNotFound (msg : string)
| HTTPError (status_code : Z)
| ValueError (msg : string)
| Foreign (e : string).          (* raised by a collaborator *)

Inductive result (A : Type) : Type :=
| Ok (a : A)
| Raise (e : error).
Arguments Ok {A} a.
Arguments Raise {A} e.

Definition bind {A B} (m : result A) (k : A -> result B) : result B :=
  match m with
  | Ok a => k a
  | Raise e => Raise e
  end.

(** [try: m except (ConfigFileNotFoundError, KeyError): handler] *)
Definition except_config_or_key {A} (m : result A) (handler : result A)
  : result A :=
  match m with
  | Raise ConfigFileNotFoundError => handler
  | Raise (KeyError _) => handler
  | other => other
  end.

(** [try: m except ConfigFileNotFoundError: handler] *)
Definition except_config {A} (m : result A) (handler : result A) : result A :=
  match m with
  | Raise ConfigFileNotFoundError => handler
  | other => other
  end.

(** Truth value of an object. *)
Definition truthy (v : json) : bool :=
  match v with
  | JNone => false
  | JBool b => b
  | JInt z => negb (z =? 0)%Z
  | JStr s => negb (s =? EmptyString)
  | JList items => match items with [] => false | _ => true end
  | JDict bindings => match bindings with [] => false | _ => true end
  end.

(** [v == s] for a string [s]. *)
Definition is_str (v : json) (s : string) : bool :=
  match v with
  | JStr x => x =? s
  | _ => false
  end.

(** [d.get(k)] on a dictionary, [None] standing for the missing key. *)
Fixpoint lookup (d : dict) (k : string) : option json :=
  match d with
  | [] => None
  | (k', v) :: d' => if k' =? k then Some v else lookup d' k
  end.

(** [k in d] *)
Definition has_key (d : dict) (k : string) : bool :=
  match lookup d k with
  | Some _ => true
  | None => false
  end.

(** [d[k] = v]: the value of a key that is there is replaced where it
    stands, a new key goes to the end. *)
Fixpoint setitem (d : dict) (k : string) (v : json) : dict :=
  match d with
  | [] => [(k, v)]
  | (k', v') :: d' =>
      if k' =? k then (k', v) :: d' else (k', v') :: setitem d' k v
  end.

(** [del d[k]], for a key that may be missing. *)
Fixpoint remove (d : dict) (k : string) : dict :=
  match d with
  | [] => []
  | (k', v') :: d' =>
      if k' =? k then remove d' k else (k', v') :: remove d' k
  end.

(** The keys of a dictionary are distinct. *)
Definition distinct_keys (d : dict) : Prop := NoDup (map fst d).

(** [v[k]] for a string [k]. *)
Definition subscript (v : json) (k : string) : result json :=
  match v with
  | JDict d =>
      match lookup d k with
      | Some x => Ok x
      | None => Raise (KeyError k)
      end
  | JList _ => Raise (TypeError "list indices must be integers or slices, not str")
  | JStr _ => Raise (TypeError "string indices must be integers")
  | _ => Raise (TypeError "object is not subscriptable")
  end.

(** [v.get(k, default)] *)
Definition get (v : json) (k : string) (default : json) : result json :=
  match v with
  | JDict d =>
      match lookup d k with
      | Some x => Ok x
      | None => Ok default
      end
  | _ => Raise (AttributeError "get")
  end.

(** The one-character strings of a string. *)
Fixpoint characters (s : string) : list json :=
  match s with
  | EmptyString => []
  | String c s' => JStr (String c EmptyString) :: characters s'
  end.

(** What [for x in v] goes through. *)
Definition iterate (v : json) : result (list json) :=
  match v with
  | JList items => Ok items
  | JDict d => Ok (map (fun kv => JStr (fst kv)) d)
  | JStr s => Ok (characters s)
  | _ => Raise (TypeError "object is not iterable")
  end.

(** [s.replace(old, new)] for one-character [old] and [new]. *)
Fixpoint replace (old new : ascii) (s : string) : string :=
  match s with
  | EmptyString => EmptyString
  | String c s' =>
      String (if Ascii.eqb c old then new else c) (replace old new s')
  end.

(** [sub in s] for strings. *)
Fixpoint contains (sub s : string) : bool :=
  String.prefix sub s ||
  match s with
  | EmptyString => false
  | String _ s' => contains sub s'
  end.

(** The character occurs in the string. *)
Fixpoint occurs (c : ascii) (s : string) : bool :=
  match s with
  | EmptyString => false
  | String c' s' => Ascii.eqb c' c || occurs c s'
  end.

End Dyn.

Declare Scope dyn_scope.
Delimit Scope dyn_scope with dyn.
Notation "x <- m ;; k" := (Dyn.bind m (fun x => k))
  (at level 61, m at next level, right associativity) : dyn_scope.

(* ===================================================================== *)
(** ** Reading the configuration: [camayoc/tests/qcs/api/v1/utils.py] and
       [camayoc/tests/qcs/cli/test_scans.py] *)
(* ===================================================================== *)

Module Config.

Import Dyn.
Local Open Scope string_scope.

Section Reading.

(** [config.get_config()]: the configuration, or the error of reading
    it. *)
Variable get_config : result json.

(** [get_config()['qcs']['sources']], ready to be gone through. *)
Definition sources_of_config : result (list json) :=
  (cfg <- get_config ;;
   qcs <- subscript cfg "qcs" ;;
   sources <- subscript qcs "sources" ;;
   iterate sources)%dyn.

(** [[s for s in items if s['type'] == 'network']] *)
Fixpoint network_only (items : list json) : result (list json) :=
  match items with
  | [] => Ok []
  | s :: rest =>
      (t <- subscript s "type" ;;
       selected <- network_only rest ;;
       Ok (if is_str t "network" then s :: selected else selected))%dyn
  end.

(** [network_sources()] of [utils.py] *)
Definition network_sources : result (list json) :=
  except_config_or_key
    (items <- sources_of_config ;; network_only items)%dyn
    (Ok []).

(** The [for] loop of [first_network_source]: the binding of [src] that
    it leaves, if it leaves one. *)
Fixpoint first_network (items : list json) : result (option (list json)) :=
  match items with
  | [] => Ok None
  | s :: rest =>
      (t <- subscript s "type" ;;
       if is_str t "network" then Ok (Some [s]) else first_network rest)%dyn
  end.

Definition default_source : json :=
  JDict [("hosts", JList [JStr "localhost"]);
         ("name", JStr "localhost");
         ("credentials", JStr "root")].

(** [first_network_source()] of [utils.py] *)
Definition first_network_source : result (list json) :=
  (src <- except_config_or_key
            (items <- sources_of_config ;; first_network items)
            (Ok (Some [default_source])) ;;
   match src with
   | Some l => Ok l
   | None => Raise (UnboundLocalError "src")
   end)%dyn.

(** [config_credentials()] of [test_scans.py] *)
Definition config_credentials : result json :=
  except_config
    (cfg <- get_config ;; get cfg "credentials" (JList []))%dyn
    (Ok (JList [])).

(** [config_sources()] of [test_scans.py] *)
Definition config_sources : result json :=
  except_config
    (cfg <- get_config ;;
     qcs <- get cfg "qcs" (JDict []) ;;
     get qcs "sources" (JList []))%dyn
    (Ok (JList [])).

End Reading.

(** [k.replace('_', '-')] *)
Definition dashed (k : string) : string := replace "_" "-" k.

(** The loop [for k, v in options.items(): source[k.replace('_', '-')] = v]
    of [setup_sources]. *)
Definition add_options (options source : dict) : dict :=
  fold_left (fun d kv => setitem d (dashed (fst kv)) (snd kv)) options source.

(** What [setup_sources] does to one source before it hands it to
    [source_add]. The dictionary is changed in place, so the function
    gives the dictionary as it is left, also when the body raises. *)
Definition prepare_source (source : dict) : result unit * dict :=
  match lookup source "credentials" with
  | None => (Raise (KeyError "credentials"), source)
  | Some credentials =>
      let source := setitem (remove source "credentials") "cred" credentials in
      let options :=
        match lookup source "options" with
        | Some o => o
        | None => JDict []
        end in
      let source := remove source "options" in
      match options with
      | JDict opts => (Ok tt, add_options opts source)
      | _ => (Raise (AttributeError "items"), source)
      end
  end.

(** What [setup_credentials] does to one credential before it hands it to
    [cred_add]: the dictionary as it is left, and the list [inputs] of
    prompts with their answers. *)
Definition blank_passwords (CONNECTION_PASSWORD_INPUT BECOME_PASSWORD_INPUT : string)
  (credential : dict) : dict * list (string * json) :=
  let (credential, inputs) :=
    match lookup credential "password" with
    | Some password =>
        (setitem credential "password" JNone,
         [(CONNECTION_PASSWORD_INPUT, password)])
    | None => (credential, [])
    end in
  match lookup credential "become-password" with
  | Some password =>
      (setitem credential "become-password" JNone,
       (inputs ++ [(BECOME_PASSWORD_INPUT, password)])%list)
  | None => (credential, inputs)
  end.

(** A source with a readable ['type']. *)
Definition has_type (s : json) : Prop := exists t, subscript s "type" = Ok t.

(** A source whose ['type'] is ['network']. *)
Definition is_network (s : json) : bool :=
  match subscript s "type" with
  | Ok t => is_str t "network"
  | Raise _ => false
  end.

(** A dictionary without the key ['type']. *)
Definition lacks_type (s : json) : Prop :=
  exists d, s = JDict d /\ lookup d "type" = None.

Definition is_dict (s : json) : Prop := exists d, s = JDict d.

(** The value that the options leave under a key: that of the last option
    whose key, with dashes for underscores, is that key. *)
Definition last_option (options : dict) (q : string) : option json :=
  lookup (rev (map (fun kv => (dashed (fst kv), snd kv)) options)) q.

(** The options of a source, as [setup_sources] reads them: the
    dictionary under ['options'], none when the key is missing. *)
Definition options_of (source : dict) (options : dict) : Prop :=
  lookup source "options" = Some (JDict options) \/
  (lookup source "options" = None /\ options = []).

(** A configuration with two network sources around one of another
    type, for the examples. *)
Definition example_sources : list json :=
  [JDict [("name", JStr "alpha"); ("type", JStr "network");
          ("hosts", JList [JStr "10.0.0.1"]); ("credentials", JList [JStr "root"])];
   JDict [("name", JStr "vc"); ("type", JStr "vcenter");
          ("hosts", JList [JStr "10.0.0.2"]); ("credentials", JList [JStr "admin"])];
   JDict [("name", JStr "beta"); ("type", JStr "network");
          ("hosts", JList [JStr "10.0.0.3"]); ("credentials", JList [JStr "root"])]].

Definition example_config : json :=
  JDict [("credentials", JList []);
         ("qcs", JDict [("hostname", JStr "http://qcs.example.com:8000");
                        ("sources", JList example_sources)])].

(** A source as [setup_sources] finds it, for the examples. *)
Definition example_source : dict :=
  [("name", JStr "alpha"); ("type", JStr "network");
   ("hosts", JList [JStr "10.0.0.1"]); ("credentials", JList [JStr "root"]);
   ("options", JDict [("ssl_cert_verify", JBool false);
                      ("disable_ssl", JBool true)])].

(** A credential as [setup_credentials] finds it, for the examples. *)
Definition example_credential : dict :=
  [("name", JStr "root"); ("username", JStr "root");
   ("password", JStr "secret"); ("become-password", JStr "hidden")].

End Config.

(* ===================================================================== *)
(** ** [camayoc/api.py]: the client of the API *)
(* ===================================================================== *)

Module Client.

Import Dyn.
Local Open Scope string_scope.
Local Open Scope Z_scope.

(** The part of a [requests.Response] that the handlers look at:
    the status code, and what [response.json()] gives. *)
Record response : Type := {
  status_code : Z;
  json_body : result json
}.

(** [response.raise_for_status()]: [HTTPError] for a status code in the
    4XX or 5XX range. *)
Definition raise_for_status (r : response) : result unit :=
  if (400 <=? status_code r) && (status_code r <? 600)
  then Raise (HTTPError (status_code r))
  else Ok tt.

(** What a response handler returns: the response, or its decoded body. *)
Inductive handled : Type :=
| Response (r : response)
| Body (v : json).

Definition handler : Type := response -> result handled.

Definition echo_handler : handler := fun r => Ok (Response r).

Definition code_handler : handler :=
  fun r => (_ <- raise_for_status r ;; Ok (Response r))%dyn.

Definition json_handler : handler :=
  fun r => (_ <- raise_for_status r ;; v <- json_body r ;; Ok (Body v))%dyn.

(** The fields of a [Client] that [__init__] sets and the methods read. *)
Record client : Type := {
  url : string;
  response_handler : handler
}.

Definition no_hostname_message : string :=
  Py.nl ++ "'qcs' section specified in camayoc config file, but" ++
  "no 'hostname' key found.".

Definition no_url_message : string :=
  Py.nl ++ "No base url was specified to the client" ++
  Py.nl ++ "either with the url=" ++ Py.dq ++ "host" ++ Py.dq ++
  " option or with the camayoc" ++ " config file.".

Definition bad_url_message : string :=
  "A hostname was provided, but we could not use it." ++
  Py.nl ++ "Valid hostnames start with http:// or https://".

Section Api.

(** [urllib.parse.urljoin], on strings. *)
Variable urljoin : string -> string -> string.

(** [camayoc.constants.QCS_API_VERSION] *)
Variable QCS_API_VERSION : string.

(** [urljoin(base, QCS_API_VERSION)] for a base of any type: [urljoin]
    does not mix strings with other arguments. *)
Definition join_version (base : json) : result string :=
  match base with
  | JStr b => Ok (urljoin b QCS_API_VERSION)
  | _ => Raise (TypeError "Cannot mix str and non-str arguments")
  end.

(** [Client.__init__(self, response_handler=None, url=None)], given what
    [config.get_config()] returns. The argument [url] is a string or
    [None]. *)
Definition init (get_config : result json)
  (response_handler : option handler) (url : option string)
  : result client :=
  (cfg <- get_config ;;
   qcs_settings <- get cfg "qcs" JNone ;;
   let url_given :=
     match url with
     | Some u => negb (u =? EmptyString)%string
     | None => false
     end in
   let self_url :=
     match url with
     | Some u => if url_given then Some (urljoin u QCS_API_VERSION) else None
     | None => None
     end in
   self_url <-
     (if truthy qcs_settings && negb url_given then
        hostname <- get qcs_settings "hostname" JNone ;;
        if negb (truthy hostname)
        then Raise (QCSBaseUrlNotFound no_hostname_message)
        else joined <- join_version hostname ;; Ok (Some joined)
      else Ok self_url) ;;
   match self_url with
   | None => Raise (QCSBaseUrlNotFound no_url_message)
   | Some u =>
       if (u =? EmptyString)%string
       then Raise (QCSBaseUrlNotFound no_url_message)
       else if negb (contains "http" u)
       then Raise (QCSBaseUrlNotFound bad_url_message)
       else Ok {| url := u;
                  response_handler :=
                    match response_handler with
                    | None => code_handler
                    | Some h => h
                    end |}
   end)%dyn.

(** [requests.request(method, url, json=payload)]: the response of the
    server, or the error of the transport. *)
Variable requests_request :
  string -> string -> option json -> result response.

(** [Client.request(self, method, url, **kwargs)] *)
Definition request (self : client) (method url : string)
  (payload : option json) : result handled :=
  (r <- requests_request method url payload ;; response_handler self r)%dyn.

Definition delete (self : client) (endpoint : string) : result handled :=
  request self "DELETE" (urljoin (url self) endpoint) None.

Definition get_ (self : client) (endpoint : string) : result handled :=
  request self "GET" (urljoin (url self) endpoint) None.

Definition head (self : client) (endpoint : string) : result handled :=
  request self "HEAD" (urljoin (url self) endpoint) None.

Definition post (self : client) (endpoint : string) (payload : json)
  : result handled :=
  request self "POST" (urljoin (url self) endpoint) (Some payload).

Definition put (self : client) (endpoint : string) (payload : json)
  : result handled :=
  request self "PUT" (urljoin (url self) endpoint) (Some payload).

End Api.

(** The argument [url] is [None] or the empty string. *)
Definition no_url (u : option string) : Prop :=
  u = None \/ u = Some EmptyString.

(** A key that is missing from a dictionary, or has a value that counts
    as false. *)
Definition falsy_at (d : dict) (k : string) : Prop :=
  lookup d k = None \/ exists v, lookup d k = Some v /\ truthy v = false.

(** A stand-in for [urljoin] in the examples: the path is put after the
    base. *)
Definition example_urljoin (base path : string) : string := base ++ path.

(** A transport for the examples: every request is answered with the
    given status code and an empty body. *)
Definition example_transport (code : Z)
  : string -> string -> option json -> result response :=
  fun _ _ _ => Ok {| status_code := code; json_body := Ok (JDict []) |}.

End Client.

(* ===================================================================== *)
(** ** Facts about [str.format] and the histories *)
(* ===================================================================== *)

Module PyFacts.

Import Py Sim.

Lemma eq_str_true v s : eq_str v s = true -> v = PyStr s.
Proof.
  destruct v as [|x|z]; simpl; try discriminate.
  intros H. apply String.eqb_eq in H. now subst.
Qed.


Lemma polls_app u w : polls (u ++ w) = (polls u + polls w)%nat.
Proof. unfold polls. now rewrite filter_app, length_app. Qed.

Lemma sleeps_app u w : sleeps (u ++ w) = (sleeps u + sleeps w)%nat.
Proof. unfold sleeps. now rewrite filter_app, length_app. Qed.

Lemma slept_app u w : slept (u ++ w) = (slept u + slept w)%Z.
Proof.
  induction u as [|e u IH]; simpl; [reflexivity|].
  destruct e; rewrite IH; lia.
Qed.

(** [cycles] is the ceiling of the division by the polling interval. *)
Lemma cycles_ceil t : (5 * (Runs.cycles t - 1) < t <= 5 * Runs.cycles t)%Z.
Proof.
  unfold Runs.cycles.
  pose proof (Z.div_mod (t + 4) 5 ltac:(lia)).
  pose proof (Z.mod_pos_bound (t + 4) 5 ltac:(lia)). lia.
Qed.

Lemma cycles_step t : (Runs.cycles t = 1 + Runs.cycles (t - 5))%Z.
Proof.
  unfold Runs.cycles.
  replace (t + 4)%Z with ((t - 5 + 4) + 1 * 5)%Z by lia.
  rewrite Z.div_add by lia. lia.
Qed.

Lemma cycles_nonpos t : (t <= 0)%Z -> (Runs.cycles t <= 0)%Z.
Proof. pose proof (cycles_ceil t). lia. Qed.

Lemma cycles_pos t : (0 < t)%Z -> (0 < Runs.cycles t)%Z.
Proof. pose proof (cycles_ceil t). lia. Qed.

End PyFacts.

(* ===================================================================== *)
(** ** Facts about [wait_for_scan] *)
(* ===================================================================== *)

Module CliFacts.

Import Py Sim Runs Views PyFacts Cli.
Local Open Scope string_scope.
Local Open Scope Z_scope.

Section Facts.

Variable pformat : dict -> string.
Variable scan_job : string -> world -> reply dict.

Lemma format_scan_failed a b :
  exists msg, format failed_template [a; b] = Ret msg.
Proof. eexists. vm_compute. reflexivity. Qed.

Lemma format_timeout a b c :
  exists msg, format timeout_template [a; b; c] = Ret msg.
Proof. eexists. vm_compute. reflexivity. Qed.

Lemma poll_cases id status w :
  poll_view pformat scan_job id status w (poll pformat scan_job id status w).
Proof.
  unfold Cli.poll, bind, call, getitem, ret, raise, lift, sleep.
  destruct (scan_job id w) as [r|f] eqn:Hjob; [|now constructor].
  destruct (get r "status") as [s|] eqn:Hget.
  2:{ destruct (negb (status =? "failed")%string);
      now apply PollNoStatus. }
  destruct (String.eqb_spec status "failed") as [Hst|Hst]; cbn [negb].
  - destruct (eq_str s status) eqn:Heq.
    + eapply PollReached; eauto.
    + eapply PollWait; eauto.
  - destruct (eq_str s "failed") eqn:Hfailed.
    + destruct (format_scan_failed id (pformat r)) as [msg Hmsg].
      rewrite Hmsg. eapply PollFailed; eauto.
    + destruct (eq_str s status) eqn:Heq.
      * eapply PollReached; eauto.
      * eapply PollWait; eauto.
Qed.

Lemma poll_pending id status w r :
  scan_job id w = Reply r -> pending status r ->
  poll pformat scan_job id status w =
  (Ret (Continue r), EvSleep 5 :: EvScanJob id (Reply r) :: w).
Proof.
  intros Hr (s & Hget & Hnot & Hnotfailed).
  unfold Cli.poll, bind, call, getitem, ret, raise, lift, sleep.
  rewrite Hr, Hget, Hnot, Hnotfailed.
  now destruct (negb (status =? "failed")%string).
Qed.

Lemma poll_reached id status w r :
  scan_job id w = Reply r -> reached status r ->
  poll pformat scan_job id status w =
  (Ret Return_, EvScanJob id (Reply r) :: w).
Proof.
  intros Hr (s & Hget & Heq).
  unfold Cli.poll, bind, call, getitem, ret, raise, lift, sleep.
  rewrite Hr, Hget, Heq.
  destruct (String.eqb_spec status "failed") as [Hst|Hst];
    cbn [negb]; [reflexivity|].
  apply eq_str_true in Heq as ->. cbn [eq_str].
  apply String.eqb_neq in Hst as ->. reflexivity.
Qed.

Lemma poll_failed id status w r :
  scan_job id w = Reply r -> get r "status" = Some (PyStr "failed") ->
  status <> "failed"%string ->
  exists msg,
    format failed_template [id; pformat r] = Ret msg /\
    poll pformat scan_job id status w =
    (Exc (FailedScanException msg), EvScanJob id (Reply r) :: w).
Proof.
  intros Hr Hget Hst.
  destruct (format_scan_failed id (pformat r)) as [msg Hmsg].
  exists msg. split; [assumption|].
  unfold Cli.poll, bind, call, getitem, ret, raise, lift, sleep.
  rewrite Hr, Hget. apply String.eqb_neq in Hst as ->.
  cbn [negb eq_str]. rewrite String.eqb_refl, Hmsg. reflexivity.
Qed.

(** The loop, unfolded once. *)
Lemma wait_for_scan_from_eq result id status timeout w :
  wait_for_scan_from pformat scan_job result id status timeout w =
  if 0 <? timeout then
    match poll pformat scan_job id status w with
    | (Exc e, w1) => (Exc e, w1)
    | (Ret Return_, w1) => (Ret tt, w1)
    | (Ret (Continue r), w1) =>
        wait_for_scan_from pformat scan_job (Some r) id status (timeout - 5) w1
    end
  else raise_timeout pformat id status result w.
Proof.
  simp wait_for_scan_from.
  destruct (Z_lt_dec 0 timeout) as [Hpos|Hneg]; simpl.
  - destruct (Z.ltb_spec 0 timeout); [|lia].
    destruct (poll pformat scan_job id status w) as [[[|r]|e] w1]; reflexivity.
  - destruct (Z.ltb_spec 0 timeout); [lia|reflexivity].
Qed.

(** What the [raise] after the loop raises. *)
Lemma raise_timeout_cases id status result w :
  (result = None /\
   raise_timeout pformat id status result w
   = (Exc (UnboundLocalError "result"), w)) \/
  (exists r msg,
      result = Some r /\
      format timeout_template [id; status; pformat r] = Ret msg /\
      raise_timeout pformat id status result w
      = (Exc (WaitTimeError msg), w)).
Proof.
  destruct result as [r|]; [right|left; split; reflexivity].
  destruct (format_timeout id status (pformat r)) as [msg Hmsg].
  exists r, msg. repeat split; trivial.
  unfold raise_timeout, bind, lift, raise. now rewrite Hmsg.
Qed.

(** Induction over the passes of a run. *)
Lemma wait_for_scan_from_run
  (P : option dict -> Z -> world -> outcome unit * world -> Prop)
  (id status : string) :
  (forall result t w,
      t <= 0 -> P result t w (raise_timeout pformat id status result w)) ->
  (forall result t w e w1,
      0 < t -> poll pformat scan_job id status w = (Exc e, w1) ->
      P result t w (Exc e, w1)) ->
  (forall result t w w1,
      0 < t -> poll pformat scan_job id status w = (Ret Return_, w1) ->
      P result t w (Ret tt, w1)) ->
  (forall result t w r w1,
      0 < t -> poll pformat scan_job id status w = (Ret (Continue r), w1) ->
      P (Some r) (t - 5) w1
        (wait_for_scan_from pformat scan_job (Some r) id status (t - 5) w1) ->
      P result t w
        (wait_for_scan_from pformat scan_job (Some r) id status (t - 5) w1)) ->
  forall result t w,
    P result t w (wait_for_scan_from pformat scan_job result id status t w).
Proof.
  intros Hexpired Hexc Hreturn Hcontinue result t.
  remember (Z.to_nat t) as n eqn:Hn.
  revert result t Hn.
  induction n as [n IH] using lt_wf_ind.
  intros result t Hn w. rewrite wait_for_scan_from_eq.
  destruct (Z.ltb_spec 0 t) as [Hpos|Hneg]; [|now apply Hexpired].
  destruct (poll pformat scan_job id status w) as [[[|r]|e] w1] eqn:Hpoll.
  - now apply Hreturn.
  - apply Hcontinue; trivial.
    apply (IH (Z.to_nat (t - 5))); [lia|reflexivity].
  - now apply Hexc.
Qed.

Ltac poll_inv H :=
  match type of H with
  | poll _ _ ?id ?status ?w = _ =>
      let Hv := fresh "Hv" in
      pose proof (poll_cases id status w) as Hv;
      rewrite H in Hv; inversion Hv; subst; clear Hv
  end.

(** With no budget the loop body does not run and [result] is unbound
    at the [raise]. *)
Lemma wait_for_scan_expired id status timeout w :
  timeout <= 0 ->
  wait_for_scan pformat scan_job id status timeout w =
  (Exc (UnboundLocalError "result"), w).
Proof.
  intros Ht. unfold wait_for_scan. rewrite wait_for_scan_from_eq.
  destruct (Z.ltb_spec 0 timeout); [lia|reflexivity].
Qed.

(** A run only adds to the history; all its sleeps last 5, and there
    are at most [ceil(timeout / 5)] of them, exactly so many when the
    run ends in [WaitTimeError]. *)
Lemma wait_for_scan_from_sleeps id status result timeout w :
  exists new,
    snd (wait_for_scan_from pformat scan_job result id status timeout w)
    = (new ++ w)%list /\
    Forall (fun e => is_sleep e = true -> e = EvSleep 5) new /\
    slept new = 5 * Z.of_nat (sleeps new) /\
    Z.of_nat (sleeps new) <= Z.max 0 (cycles timeout) /\
    (forall msg,
        fst (wait_for_scan_from pformat scan_job result id status timeout w)
        = Exc (WaitTimeError msg) ->
        Z.of_nat (sleeps new) = Z.max 0 (cycles timeout)).
Proof.
  apply wait_for_scan_from_run
    with (P := fun result timeout w x =>
      exists new,
        snd x = (new ++ w)%list /\
        Forall (fun e => is_sleep e = true -> e = EvSleep 5) new /\
        slept new = 5 * Z.of_nat (sleeps new) /\
        Z.of_nat (sleeps new) <= Z.max 0 (cycles timeout) /\
        (forall msg, fst x = Exc (WaitTimeError msg) ->
                     Z.of_nat (sleeps new) = Z.max 0 (cycles timeout)));
    clear result timeout w.
  - intros result t w Ht. exists []. pose proof (cycles_nonpos t Ht).
    destruct (raise_timeout_cases id status result w)
      as [[_ ->]|(r & msg & _ & _ & ->)];
      cbn; repeat split; trivial; lia.
  - intros result t w e w1 Ht Hpoll. pose proof (cycles_pos t Ht).
    poll_inv Hpoll; eexists [_]; (split; [reflexivity|]);
      (split; [constructor; [discriminate|constructor]|]);
      cbn; repeat split; try lia; discriminate.
  - intros result t w w1 Ht Hpoll. pose proof (cycles_pos t Ht).
    poll_inv Hpoll; eexists [_]; (split; [reflexivity|]);
      (split; [constructor; [discriminate|constructor]|]);
      cbn; repeat split; try lia; discriminate.
  - intros result t w r w1 Ht Hpoll (new & Hw & Hall & Hslept & Hle & Hexact).
    pose proof (cycles_pos t Ht). pose proof (cycles_step t).
    poll_inv Hpoll.
    exists (new ++ [EvSleep 5; EvScanJob id (Reply r)])%list.
    rewrite Hw, <- app_assoc, sleeps_app, slept_app, Hslept.
    change (sleeps [EvSleep 5; EvScanJob id (Reply r)]) with 1%nat.
    change (slept [EvSleep 5; EvScanJob id (Reply r)]) with 5.
    repeat split; trivial; try lia.
    + apply Forall_app; split; trivial.
      constructor; [reflexivity|].
      constructor; [discriminate|constructor].
    + intros msg Hmsg. specialize (Hexact msg Hmsg). lia.
Qed.

(** [WaitTimeError] reports the record that the last pass bound to
    [result]; the history ends with the sleep of that pass. *)
Lemma wait_for_scan_from_message id status result timeout w :
  forall msg,
    fst (wait_for_scan_from pformat scan_job result id status timeout w)
    = Exc (WaitTimeError msg) ->
    exists r,
      format timeout_template [id; status; pformat r] = Ret msg /\
      ((result = Some r /\
        snd (wait_for_scan_from pformat scan_job result id status timeout w)
        = w) \/
       (exists rest,
           scan_job id rest = Reply r /\
           snd (wait_for_scan_from pformat scan_job result id status timeout w)
           = EvSleep 5 :: EvScanJob id (Reply r) :: rest)).
Proof.
  apply wait_for_scan_from_run
    with (P := fun result timeout w x =>
      forall msg,
        fst x = Exc (WaitTimeError msg) ->
        exists r,
          format timeout_template [id; status; pformat r] = Ret msg /\
          ((result = Some r /\ snd x = w) \/
           (exists rest,
               scan_job id rest = Reply r /\
               snd x = EvSleep 5 :: EvScanJob id (Reply r) :: rest)));
    clear result timeout w.
  - intros result t w _ msg.
    destruct (raise_timeout_cases id status result w)
      as [[_ ->]|(r & msg' & -> & Hmsg & ->)]; cbn; [discriminate|].
    intros [= <-]. exists r. split; [assumption|]. now left.
  - intros result t w e w1 _ Hpoll msg. poll_inv Hpoll; discriminate.
  - intros result t w w1 _ Hpoll msg. discriminate.
  - intros result t w r w1 _ Hpoll IH msg Hmsg.
    destruct (IH msg Hmsg) as (r' & Hfmt & Hshape).
    exists r'. split; [assumption|]. right.
    destruct Hshape as [[[= <-] Hsnd]|(rest & Hrest & Hsnd)].
    + poll_inv Hpoll. now exists w.
    + now exists rest.
Qed.

(** An error of the status source ends the run at once, and is what the
    run raises. *)
Lemma wait_for_scan_from_fault id status result timeout w :
  exists new,
    snd (wait_for_scan_from pformat scan_job result id status timeout w)
    = (new ++ w)%list /\
    forall ev f,
      In ev new -> fault_of ev = Some f ->
      fst (wait_for_scan_from pformat scan_job result id status timeout w)
      = Exc (Propagated f) /\
      exists rest, new = ev :: rest.
Proof.
  apply wait_for_scan_from_run
    with (P := fun (result : option dict) (timeout : Z) w x =>
      exists new,
        snd x = (new ++ w)%list /\
        forall ev f,
          In ev new -> fault_of ev = Some f ->
          fst x = Exc (Propagated f) /\ exists rest, new = ev :: rest);
    clear result timeout w.
  - intros result t w _. exists [].
    destruct (raise_timeout_cases id status result w)
      as [[_ ->]|(r & msg' & -> & Hmsg & ->)];
      (split; [reflexivity|intros ev f []]).
  - intros result t w e w1 _ Hpoll.
    poll_inv Hpoll; eexists [_]; (split; [reflexivity|]);
      intros ev f' [<-|[]]; cbn; intros [= <-].
    split; [reflexivity|now exists []].
  - intros result t w w1 _ Hpoll.
    poll_inv Hpoll; eexists [_]; (split; [reflexivity|]);
      intros ev f' [<-|[]]; cbn; discriminate.
  - intros result t w r w1 _ Hpoll (new & Hw & Hfault).
    poll_inv Hpoll.
    exists (new ++ [EvSleep 5; EvScanJob id (Reply r)])%list.
    rewrite Hw, <- app_assoc. split; [reflexivity|].
    intros ev f Hin Hf. apply in_app_or in Hin as [Hin|Hin].
    + destruct (Hfault ev f Hin Hf) as [Hfst [rest ->]].
      split; [assumption|]. eexists. reflexivity.
    + destruct Hin as [<-|[<-|[]]]; discriminate.
Qed.

Lemma polls_waited id rs w :
  polls (waited id rs w) = (polls w + List.length rs)%nat.
Proof.
  revert w. induction rs as [|r rs IH]; intros w; simpl; [lia|].
  rewrite IH. unfold polls. simpl. lia.
Qed.

Lemma sleeps_waited id rs w :
  sleeps (waited id rs w) = (sleeps w + List.length rs)%nat.
Proof.
  revert w. induction rs as [|r rs IH]; intros w; simpl; [lia|].
  rewrite IH. unfold sleeps. simpl. lia.
Qed.

(** As long as the records polled are pending and budget is left, the
    waiter sleeps and polls again. *)
Lemma wait_for_scan_from_waited id status rs :
  forall result timeout w,
    answers scan_job id rs w ->
    Forall (pending status) rs ->
    5 * Z.of_nat (List.length rs) < timeout + 5 ->
    wait_for_scan_from pformat scan_job result id status timeout w =
    wait_for_scan_from pformat scan_job
      (fold_left (fun _ r => Some r) rs result) id status
      (timeout - 5 * Z.of_nat (List.length rs)) (waited id rs w).
Proof.
  induction rs as [|r rs IH]; intros result timeout w Hans Hpend Hbudget.
  - simpl. now rewrite Z.sub_0_r.
  - destruct Hans as [Hr Hans]. inversion Hpend as [|? ? Hp Hpend']; subst.
    cbn [List.length] in Hbudget.
    rewrite wait_for_scan_from_eq.
    destruct (Z.ltb_spec 0 timeout); [|lia].
    rewrite (poll_pending id status w r Hr Hp).
    rewrite (IH (Some r) (timeout - 5)); trivial; [|lia].
    cbn [fold_left waited List.length]. f_equal. lia.
Qed.

(** The record polled after that has the status waited for: the waiter
    returns, without another sleep. *)
Lemma wait_for_scan_reached id status rs r timeout w :
  answers scan_job id rs w ->
  Forall (pending status) rs ->
  scan_job id (waited id rs w) = Reply r ->
  reached status r ->
  5 * Z.of_nat (List.length rs) < timeout ->
  wait_for_scan pformat scan_job id status timeout w =
  (Ret tt, EvScanJob id (Reply r) :: waited id rs w).
Proof.
  intros Hans Hpend Hr Hreached Hbudget.
  unfold wait_for_scan.
  rewrite (wait_for_scan_from_waited id status rs None timeout w Hans Hpend) by lia.
  rewrite wait_for_scan_from_eq.
  destruct (Z.ltb_spec 0 (timeout - 5 * Z.of_nat (List.length rs))); [|lia].
  now rewrite (poll_reached id status _ r Hr Hreached).
Qed.

(** The record polled after that has the status [failed], which is not
    the one waited for: the waiter raises [FailedScanException]. *)
Lemma wait_for_scan_failed id status rs r timeout w :
  answers scan_job id rs w ->
  Forall (pending status) rs ->
  scan_job id (waited id rs w) = Reply r ->
  get r "status" = Some (PyStr "failed") ->
  status <> "failed"%string ->
  5 * Z.of_nat (List.length rs) < timeout ->
  exists msg,
    format failed_template [id; pformat r] = Ret msg /\
    wait_for_scan pformat scan_job id status timeout w =
    (Exc (FailedScanException msg), EvScanJob id (Reply r) :: waited id rs w).
Proof.
  intros Hans Hpend Hr Hget Hst Hbudget.
  unfold wait_for_scan.
  rewrite (wait_for_scan_from_waited id status rs None timeout w Hans Hpend) by lia.
  rewrite wait_for_scan_from_eq.
  destruct (Z.ltb_spec 0 (timeout - 5 * Z.of_nat (List.length rs))); [|lia].
  destruct (poll_failed id status _ r Hr Hget Hst) as (msg & Hmsg & ->).
  now exists msg.
Qed.

End Facts.

End CliFacts.

(* ===================================================================== *)
(** ** Facts about [wait_until_state] *)
(* ===================================================================== *)

Module ApiFacts.

Import Py Sim Runs Views PyFacts Api.
Local Open Scope string_scope.
Local Open Scope Z_scope.

Section Facts.

Variable pformat : dict -> string.

Lemma format_timed_out a b c d e :
  exists msg, format timed_out_template [a; b; c; d; e] = Ret msg.
Proof. eexists. vm_compute. reflexivity. Qed.

(** The template of the failure has four fields and gets two
    arguments. *)
Lemma format_failed_arity a b :
  format failed_template [a; b] = Exc (IndexError 2).
Proof. vm_compute. reflexivity. Qed.

Lemma not_in_state_cases scan state w :
  test_view scan state w (not_in_state scan state w).
Proof.
  unfold not_in_state, bind, call, ret.
  destruct (status scan w) as [s|f] eqn:Hs; [|now constructor].
  destruct (truthy s) eqn:Htruthy; cbn [negb]; [|now constructor].
  destruct (status scan (EvStatus (Reply s) :: w)) as [s'|f] eqn:Hs'.
  - now apply TestCompared.
  - now apply TestFaultAgain.
Qed.

Lemma raise_if_failed_cases scan state w :
  (state = "failed"%string /\ raise_if_failed scan state w = (Ret tt, w)) \/
  (state <> "failed"%string /\
   match status scan w with
   | Fault f =>
       raise_if_failed scan state w
       = (Exc (Propagated f), EvStatus (Fault f) :: w)
   | Reply s =>
       raise_if_failed scan state w
       = (if eq_str s "failed" then Exc (IndexError 2) else Ret tt,
          EvStatus (Reply s) :: w)
   end).
Proof.
  unfold raise_if_failed, bind, call, ret, lift, raise.
  destruct (String.eqb_spec state "failed") as [Hst|Hst]; cbn [negb].
  - left. now split.
  - right. split; [assumption|].
    destruct (status scan w) as [s|f]; [|reflexivity].
    destruct (eq_str s "failed"); [|reflexivity].
    now rewrite format_failed_arity.
Qed.

Lemma cycle_cases scan t state w :
  cycle_view pformat scan t state w (cycle pformat scan t state w).
Proof.
  unfold cycle, bind at 1 2, sleep.
  destruct (Z.leb_spec (t - 5) 0) as [Hle|Hlt].
  - unfold raise_timed_out, bind, call, lift, raise.
    destruct (status scan (EvSleep 5 :: w)) as [s|f] eqn:Hs;
      [|now apply CycleTimeoutFault].
    destruct (read scan _) as [d|f] eqn:Hd;
      [|now apply CycleTimeoutReadFault].
    destruct (results scan _) as [r|f] eqn:Hr;
      [|now eapply CycleTimeoutResultsFault].
    destruct (format_timed_out (str (_id scan)) state (str s)
                (pformat d) (pformat r)) as [msg Hmsg].
    rewrite Hmsg. now apply CycleTimeout.
  - unfold ret at 1.
    destruct (raise_if_failed_cases scan state (EvSleep 5 :: w))
      as [[Hst ->]|[Hst Hcheck]]; [now apply CycleUnchecked|].
    destruct (status scan (EvSleep 5 :: w)) as [s|f] eqn:Hs;
      rewrite Hcheck; [|now apply CycleCheckFault].
    destruct (eq_str s "failed") eqn:Hfailed.
    + now apply CycleFailed.
    + now apply CycleChecked.
Qed.

(** The loop, unfolded once. *)
Lemma wait_until_state_eq scan timeout state w :
  wait_until_state pformat scan timeout state w =
  match not_in_state scan state w with
  | (Exc e, w1) => (Exc e, w1)
  | (Ret false, w1) => (Ret tt, w1)
  | (Ret true, w1) =>
      if 0 <? timeout then
        match cycle pformat scan timeout state w1 with
        | (Exc e, w2) => (Exc e, w2)
        | (Ret _, w2) =>
            wait_until_state pformat scan (timeout - 5) state w2
        end
      else (Ret tt, w1)
  end.
Proof.
  simp wait_until_state.
  destruct (not_in_state scan state w) as [[[|]|e] w1]; simpl; trivial.
  destruct (Z_lt_dec 0 timeout) as [Hpos|Hneg]; simpl.
  - destruct (Z.ltb_spec 0 timeout); [|lia].
    destruct (cycle pformat scan timeout state w1) as [[[]|e] w2];
      reflexivity.
  - destruct (Z.ltb_spec 0 timeout); [lia|reflexivity].
Qed.

(** Induction over the cycles of a run. *)
Lemma wait_until_state_run
  (P : Z -> world -> outcome unit * world -> Prop)
  (scan : Scan) (state : string) :
  (forall t w e w1,
      not_in_state scan state w = (Exc e, w1) -> P t w (Exc e, w1)) ->
  (forall t w w1,
      not_in_state scan state w = (Ret false, w1) -> P t w (Ret tt, w1)) ->
  (forall t w w1,
      not_in_state scan state w = (Ret true, w1) -> t <= 0 ->
      P t w (Ret tt, w1)) ->
  (forall t w w1 e w2,
      not_in_state scan state w = (Ret true, w1) -> 0 < t ->
      cycle pformat scan t state w1 = (Exc e, w2) ->
      P t w (Exc e, w2)) ->
  (forall t w w1 w2,
      not_in_state scan state w = (Ret true, w1) -> 0 < t ->
      cycle pformat scan t state w1 = (Ret tt, w2) ->
      P (t - 5) w2 (wait_until_state pformat scan (t - 5) state w2) ->
      P t w (wait_until_state pformat scan (t - 5) state w2)) ->
  forall t w, P t w (wait_until_state pformat scan t state w).
Proof.
  intros Hexc Hdone Hexpired Hraise Hcontinue t.
  remember (Z.to_nat t) as n eqn:Hn.
  revert t Hn.
  induction n as [n IH] using lt_wf_ind.
  intros t Hn w. rewrite wait_until_state_eq.
  destruct (not_in_state scan state w) as [[[|]|e] w1] eqn:Htest.
  - destruct (Z.ltb_spec 0 t) as [Hpos|Hneg]; [|now apply Hexpired].
    destruct (cycle pformat scan t state w1) as [[[]|e] w2] eqn:Hcycle.
    + eapply Hcontinue; eauto.
      apply (IH (Z.to_nat (t - 5))); [lia|reflexivity].
    + eapply Hraise; eauto.
  - now apply Hdone.
  - now apply Hexc.
Qed.

Ltac test_inv H :=
  match type of H with
  | not_in_state ?scan ?state ?w = _ =>
      let Hv := fresh "Hv" in
      pose proof (not_in_state_cases scan state w) as Hv;
      rewrite H in Hv; inversion Hv; subst; clear Hv
  end.

Ltac cycle_inv H :=
  match type of H with
  | cycle _ ?scan ?t ?state ?w = _ =>
      let Hv := fresh "Hv" in
      pose proof (cycle_cases scan t state w) as Hv;
      rewrite H in Hv; inversion Hv; subst; clear Hv
  end.

Ltac calls_tac :=
  split;
  [ repeat first [apply Forall_nil | apply Forall_cons; [reflexivity|]]
  | intros ? ? Hin; cbn in Hin;
    repeat (destruct Hin as [<-|Hin]; [cbn; try discriminate|]);
    try contradiction;
    try (intros [= <-]; split; [reflexivity|eexists; reflexivity]) ].

Lemma not_in_state_calls scan state w :
  exists u,
    snd (not_in_state scan state w) = (u ++ w)%list /\
    calls u (fst (not_in_state scan state w)).
Proof.
  destruct (not_in_state_cases scan state w).
  - eexists [_]. split; [reflexivity|]. calls_tac.
  - eexists [_]. split; [reflexivity|]. calls_tac.
  - eexists [_; _]. split; [reflexivity|]. calls_tac.
  - eexists [_; _]. split; [reflexivity|]. calls_tac.
Qed.

Lemma cycle_calls scan t state w :
  exists u,
    snd (cycle pformat scan t state w) = (u ++ EvSleep 5 :: w)%list /\
    calls u (fst (cycle pformat scan t state w)).
Proof.
  destruct (cycle_cases scan t state w).
  - eexists [_]. split; [reflexivity|]. calls_tac.
  - eexists [_; _]. split; [reflexivity|]. calls_tac.
  - eexists [_; _; _]. split; [reflexivity|]. calls_tac.
  - eexists [_; _; _]. split; [reflexivity|]. calls_tac.
  - exists []. split; [reflexivity|]. calls_tac.
  - eexists [_]. split; [reflexivity|]. calls_tac.
  - eexists [_]. split; [reflexivity|]. calls_tac.
  - eexists [_]. split; [reflexivity|]. calls_tac.
Qed.

Lemma calls_sleeps {A} u (o : outcome A) :
  calls u o -> sleeps u = 0%nat /\ slept u = 0.
Proof.
  intros [Hall _]. induction Hall as [|e u He _ [IHn IHz]];
    [split; reflexivity|].
  destruct e; try discriminate; split; assumption.
Qed.

Lemma calls_sleep_5 {A} u (o : outcome A) :
  calls u o -> Forall (fun e => is_sleep e = true -> e = EvSleep 5) u.
Proof.
  intros [Hall _]. eapply Forall_impl; [|exact Hall].
  intros e He. rewrite He. discriminate.
Qed.

Lemma calls_ret {A} u (a : A) ev f :
  calls u (Ret a) -> In ev u -> fault_of ev = Some f -> False.
Proof.
  intros [_ Hfault] Hin Hf. now destruct (Hfault ev f Hin Hf).
Qed.

(** A run only adds to the history; all its sleeps last 5, and there
    are at most [ceil(timeout / 5)] of them, exactly so many when the
    run ends in [WaitTimeError]. *)
Lemma wait_until_state_sleeps scan timeout state w :
  exists new,
    snd (wait_until_state pformat scan timeout state w) = (new ++ w)%list /\
    Forall (fun e => is_sleep e = true -> e = EvSleep 5) new /\
    slept new = 5 * Z.of_nat (sleeps new) /\
    Z.of_nat (sleeps new) <= Z.max 0 (cycles timeout) /\
    (forall msg,
        fst (wait_until_state pformat scan timeout state w)
        = Exc (WaitTimeError msg) ->
        Z.of_nat (sleeps new) = Z.max 0 (cycles timeout)).
Proof.
  apply wait_until_state_run
    with (P := fun timeout w x =>
      exists new,
        snd x = (new ++ w)%list /\
        Forall (fun e => is_sleep e = true -> e = EvSleep 5) new /\
        slept new = 5 * Z.of_nat (sleeps new) /\
        Z.of_nat (sleeps new) <= Z.max 0 (cycles timeout) /\
        (forall msg, fst x = Exc (WaitTimeError msg) ->
                     Z.of_nat (sleeps new) = Z.max 0 (cycles timeout)));
    clear timeout w.
  - (* the loop test raises *)
    intros t w e w1 Htest.
    destruct (not_in_state_calls scan state w) as (u & Hu & Hcalls).
    rewrite Htest in Hu, Hcalls. cbn in Hu.
    destruct (calls_sleeps _ _ Hcalls) as [Hn Hz].
    exists u. rewrite Hn, Hz.
    repeat split; trivial; try lia; [now apply calls_sleep_5 in Hcalls|].
    intros msg. test_inv Htest; discriminate.
  - (* the state is reached *)
    intros t w w1 Htest.
    destruct (not_in_state_calls scan state w) as (u & Hu & Hcalls).
    rewrite Htest in Hu, Hcalls. cbn in Hu.
    destruct (calls_sleeps _ _ Hcalls) as [Hn Hz].
    exists u. rewrite Hn, Hz.
    repeat split; trivial; try lia; [now apply calls_sleep_5 in Hcalls|].
    discriminate.
  - (* no budget *)
    intros t w w1 Htest Ht.
    destruct (not_in_state_calls scan state w) as (u & Hu & Hcalls).
    rewrite Htest in Hu, Hcalls. cbn in Hu.
    destruct (calls_sleeps _ _ Hcalls) as [Hn Hz].
    exists u. rewrite Hn, Hz.
    repeat split; trivial; try lia; [now apply calls_sleep_5 in Hcalls|].
    discriminate.
  - (* the body raises *)
    intros t w w1 e w2 Htest Ht Hcycle. pose proof (cycles_pos t Ht).
    destruct (not_in_state_calls scan state w) as (u & Hu & Hcalls).
    rewrite Htest in Hu, Hcalls. cbn in Hu.
    destruct (cycle_calls scan t state w1) as (v & Hv & Hcalls').
    rewrite Hcycle in Hv, Hcalls'. cbn in Hv.
    destruct (calls_sleeps _ _ Hcalls) as [Hn Hz].
    destruct (calls_sleeps _ _ Hcalls') as [Hn' Hz'].
    exists (v ++ EvSleep 5 :: u)%list. cbn [snd fst].
    rewrite Hv, Hu, <- app_assoc, sleeps_app, slept_app, Hn', Hz'.
    change (EvSleep 5 :: u) with ([EvSleep 5] ++ u)%list.
    rewrite sleeps_app, slept_app, Hn, Hz.
    change (sleeps [EvSleep 5]) with 1%nat.
    change (slept [EvSleep 5]) with 5.
    repeat split; trivial; try lia.
    + apply Forall_app; split; [now apply calls_sleep_5 in Hcalls'|].
      apply Forall_app; split; [|now apply calls_sleep_5 in Hcalls].
      constructor; [reflexivity|constructor].
    + intros msg [= ->]. pose proof (cycles_step t).
      cycle_inv Hcycle. pose proof (cycles_nonpos (t - 5)). lia.
  - (* the body ends, and the loop goes on *)
    intros t w w1 w2 Htest Ht Hcycle (new & Hw & Hall & Hslept & Hle & Hexact).
    pose proof (cycles_pos t Ht). pose proof (cycles_step t).
    destruct (not_in_state_calls scan state w) as (u & Hu & Hcalls).
    rewrite Htest in Hu, Hcalls. cbn in Hu.
    destruct (cycle_calls scan t state w1) as (v & Hv & Hcalls').
    rewrite Hcycle in Hv, Hcalls'. cbn in Hv.
    destruct (calls_sleeps _ _ Hcalls) as [Hn Hz].
    destruct (calls_sleeps _ _ Hcalls') as [Hn' Hz'].
    subst w1 w2. exists (new ++ v ++ EvSleep 5 :: u)%list.
    rewrite Hw, <- !app_assoc, !sleeps_app, !slept_app, Hn', Hz'.
    change (EvSleep 5 :: u) with ([EvSleep 5] ++ u)%list.
    rewrite sleeps_app, slept_app, Hn, Hz, Hslept.
    change (sleeps [EvSleep 5]) with 1%nat.
    change (slept [EvSleep 5]) with 5.
    repeat split; trivial; try lia.
    + apply Forall_app; split; [assumption|].
      apply Forall_app; split; [now apply calls_sleep_5 in Hcalls'|].
      apply Forall_app; split; [|now apply calls_sleep_5 in Hcalls].
      constructor; [reflexivity|constructor].
    + intros msg Hmsg. specialize (Hexact msg Hmsg). lia.
Qed.

(** [WaitTimeError] reports a status fetched for the message, after
    the sleep and the test of the budget. *)
Lemma wait_until_state_message scan timeout state w :
  forall msg,
    fst (wait_until_state pformat scan timeout state w)
    = Exc (WaitTimeError msg) ->
    exists s d r rest,
      snd (wait_until_state pformat scan timeout state w)
      = EvResults (Reply r) :: EvRead (Reply d) :: EvStatus (Reply s)
          :: EvSleep 5 :: rest /\
      status scan (EvSleep 5 :: rest) = Reply s /\
      format timed_out_template
        [str (_id scan); state; str s; pformat d; pformat r] = Ret msg.
Proof.
  apply wait_until_state_run
    with (P := fun (timeout : Z) (w : world) x =>
      forall msg,
        fst x = Exc (WaitTimeError msg) ->
        exists s d r rest,
          snd x = EvResults (Reply r) :: EvRead (Reply d)
                    :: EvStatus (Reply s) :: EvSleep 5 :: rest /\
          status scan (EvSleep 5 :: rest) = Reply s /\
          format timed_out_template
            [str (_id scan); state; str s; pformat d; pformat r] = Ret msg);
    clear timeout w.
  - intros t w e w1 Htest msg. test_inv Htest; discriminate.
  - intros t w w1 _ msg. discriminate.
  - intros t w w1 _ _ msg. discriminate.
  - intros t w w1 e w2 _ _ Hcycle msg [= ->].
    cycle_inv Hcycle. now exists s, d, r, w1.
  - intros t w w1 w2 _ _ _ IH. exact IH.
Qed.

(** An error of a collaborator ends the run at once, and is what the
    run raises. *)
Lemma wait_until_state_fault scan timeout state w :
  exists new,
    snd (wait_until_state pformat scan timeout state w) = (new ++ w)%list /\
    forall ev f,
      In ev new -> fault_of ev = Some f ->
      fst (wait_until_state pformat scan timeout state w)
      = Exc (Propagated f) /\
      exists rest, new = ev :: rest.
Proof.
  apply wait_until_state_run
    with (P := fun (timeout : Z) w x =>
      exists new,
        snd x = (new ++ w)%list /\
        forall ev f,
          In ev new -> fault_of ev = Some f ->
          fst x = Exc (Propagated f) /\ exists rest, new = ev :: rest);
    clear timeout w.
  - intros t w e w1 Htest.
    destruct (not_in_state_calls scan state w) as (u & Hu & Hcalls).
    rewrite Htest in Hu, Hcalls. exists u. split; [exact Hu|].
    intros ev f Hin Hf.
    destruct (proj2 Hcalls ev f Hin Hf) as [[= ->] Hrest]. now split.
  - intros t w w1 Htest.
    destruct (not_in_state_calls scan state w) as (u & Hu & Hcalls).
    rewrite Htest in Hu, Hcalls. exists u. split; [exact Hu|].
    intros ev f Hin Hf. destruct (calls_ret _ _ _ _ Hcalls Hin Hf).
  - intros t w w1 Htest _.
    destruct (not_in_state_calls scan state w) as (u & Hu & Hcalls).
    rewrite Htest in Hu, Hcalls. exists u. split; [exact Hu|].
    intros ev f Hin Hf. destruct (calls_ret _ _ _ _ Hcalls Hin Hf).
  - intros t w w1 e w2 Htest _ Hcycle.
    destruct (not_in_state_calls scan state w) as (u & Hu & Hcalls).
    rewrite Htest in Hu, Hcalls. cbn in Hu.
    destruct (cycle_calls scan t state w1) as (v & Hv & Hcalls').
    rewrite Hcycle in Hv, Hcalls'. cbn in Hv.
    exists (v ++ EvSleep 5 :: u)%list. cbn [snd fst].
    rewrite Hv, Hu, <- app_assoc. split; [reflexivity|].
    intros ev f Hin Hf. apply in_app_or in Hin as [Hin|Hin].
    + destruct Hcalls' as [_ Hfault].
      destruct (Hfault ev f Hin Hf) as [Hfst [rest ->]].
      split; [assumption|]. eexists. reflexivity.
    + destruct Hin as [<-|Hin]; [discriminate|].
      destruct (calls_ret _ _ _ _ Hcalls Hin Hf).
  - intros t w w1 w2 Htest _ Hcycle (new & Hw & Hfault).
    destruct (not_in_state_calls scan state w) as (u & Hu & Hcalls).
    rewrite Htest in Hu, Hcalls. cbn in Hu.
    destruct (cycle_calls scan t state w1) as (v & Hv & Hcalls').
    rewrite Hcycle in Hv, Hcalls'. cbn in Hv.
    subst w1 w2. exists (new ++ v ++ EvSleep 5 :: u)%list.
    rewrite Hw, <- !app_assoc. split; [reflexivity|].
    intros ev f Hin Hf. apply in_app_or in Hin as [Hin|Hin].
    + destruct (Hfault ev f Hin Hf) as [Hfst [rest ->]].
      split; [assumption|]. eexists. reflexivity.
    + apply in_app_or in Hin as [Hin|Hin].
      * destruct (calls_ret _ _ _ _ Hcalls' Hin Hf).
      * destruct Hin as [<-|Hin]; [discriminate|].
        destruct (calls_ret _ _ _ _ Hcalls Hin Hf).
Qed.

(** No run raises [FailedScanException]. *)
Lemma wait_until_state_never_failed_scan scan timeout state w :
  forall msg,
    fst (wait_until_state pformat scan timeout state w)
    <> Exc (FailedScanException msg).
Proof.
  apply wait_until_state_run
    with (P := fun (timeout : Z) (w : world) x =>
      forall msg, fst x <> Exc (FailedScanException msg));
    clear timeout w.
  - intros t w e w1 Htest msg. test_inv Htest; discriminate.
  - intros t w w1 _ msg. discriminate.
  - intros t w w1 _ _ msg. discriminate.
  - intros t w w1 e w2 _ _ Hcycle msg. cycle_inv Hcycle; discriminate.
  - intros t w w1 w2 _ _ _ IH. exact IH.
Qed.

(** With no budget the loop test still runs, once, and the waiter
    returns whatever the test finds. *)
Lemma wait_until_state_expired scan timeout state w :
  timeout <= 0 ->
  wait_until_state pformat scan timeout state w =
  match not_in_state scan state w with
  | (Exc e, w1) => (Exc e, w1)
  | (Ret _, w1) => (Ret tt, w1)
  end.
Proof.
  intros Ht. rewrite wait_until_state_eq.
  destruct (not_in_state scan state w) as [[[|]|e] w1]; trivial.
  destruct (Z.ltb_spec 0 timeout); [lia|reflexivity].
Qed.


Lemma cycle_in_budget scan timeout state w :
  5 < timeout ->
  cycle pformat scan timeout state w =
  raise_if_failed scan state (EvSleep 5 :: w).
Proof.
  intros Ht. unfold cycle, bind at 1 2, sleep.
  destruct (Z.leb_spec (timeout - 5) 0); [lia|]. reflexivity.
Qed.

Section Timeline.

(** The status of the scan only depends on the time that has passed. *)
Variable scan : Scan.
Variable job : nat -> value.
Hypothesis status_job : forall w, status scan w = Reply (job (sleeps w)).

Lemma not_in_state_timeline state w :
  exists u,
    not_in_state scan state w
    = (Ret (negb (in_state state (job (sleeps w)))), (u ++ w)%list) /\
    sleeps u = 0%nat /\ polls u = test_cost (job (sleeps w)).
Proof.
  unfold not_in_state, bind, call, ret, in_state, test_cost.
  rewrite status_job.
  destruct (truthy (job (sleeps w))) eqn:Htruthy; cbn [negb andb].
  - rewrite status_job.
    change (sleeps (EvStatus (Reply (job (sleeps w))) :: w))
      with (sleeps w).
    eexists [_; _]. repeat split.
  - eexists [_]. repeat split.
Qed.

Lemma raise_if_failed_timeline state w :
  state = "failed"%string \/ eq_str (job (sleeps w)) "failed" = false ->
  exists u,
    raise_if_failed scan state w = (Ret tt, (u ++ w)%list) /\
    sleeps u = 0%nat /\ polls u = check_cost state.
Proof.
  intros Hok. unfold check_cost.
  destruct (raise_if_failed_cases scan state w) as [[Hst ->]|[Hst Hcheck]].
  - exists []. subst state. repeat split.
  - rewrite status_job in Hcheck.
    destruct Hok as [Hok|Hok]; [contradiction|].
    rewrite Hok in Hcheck. rewrite Hcheck.
    apply String.eqb_neq in Hst as ->.
    eexists [_]. repeat split.
Qed.

(** The run of a waiter that finds the job in [state] after [m]
    cycles. *)
Lemma wait_until_state_timeline state m :
  forall timeout w,
    (forall k, (k < m)%nat -> unsettled state (job (sleeps w + k))) ->
    in_state state (job (sleeps w + m)) = true ->
    m = 0%nat \/ 5 * Z.of_nat m < timeout ->
    exists w',
      wait_until_state pformat scan timeout state w = (Ret tt, w') /\
      sleeps w' = (sleeps w + m)%nat /\
      polls w' = (polls w + status_calls job state (sleeps w) m)%nat.
Proof.
  induction m as [|m IH]; intros timeout w Hbefore Hthen Hbudget.
  - rewrite Nat.add_0_r in Hthen.
    destruct (not_in_state_timeline state w) as (u & Htest & Hn & Hp).
    rewrite wait_until_state_eq, Htest, Hthen. cbn [negb].
    exists (u ++ w)%list. split; [reflexivity|].
    rewrite sleeps_app, polls_app, Hn, Hp. cbn [status_calls]. lia.
  - destruct Hbudget as [|Hbudget]; [discriminate|].
    destruct (not_in_state_timeline state w) as (u & Htest & Hn & Hp).
    assert (Hnow : in_state state (job (sleeps w)) = false).
    { destruct (Hbefore 0%nat ltac:(lia)) as [Hne _].
      rewrite Nat.add_0_r in Hne. unfold in_state. rewrite Hne.
      apply andb_false_r. }
    rewrite wait_until_state_eq, Htest, Hnow. cbn [negb].
    destruct (Z.ltb_spec 0 timeout); [|lia].
    rewrite cycle_in_budget by lia.
    assert (Hs1 : sleeps (EvSleep 5 :: u ++ w) = S (sleeps w)).
    { change (EvSleep 5 :: u ++ w)%list
        with ([EvSleep 5] ++ u ++ w)%list.
      rewrite !sleeps_app, Hn. reflexivity. }
    assert (Hp1 : polls (EvSleep 5 :: u ++ w)
                  = (polls w + test_cost (job (sleeps w)))%nat).
    { change (EvSleep 5 :: u ++ w)%list
        with ([EvSleep 5] ++ u ++ w)%list.
      rewrite !polls_app, Hp. cbn. lia. }
    destruct (raise_if_failed_timeline state (EvSleep 5 :: u ++ w))
      as (v & Hcheck & Hn' & Hp').
    { rewrite Hs1. destruct m as [|m'].
      - rewrite Nat.add_1_r in Hthen. unfold in_state in Hthen.
        apply andb_true_iff in Hthen as [_ Heq].
        apply eq_str_true in Heq as ->. cbn [eq_str].
        destruct (String.eqb_spec state "failed"); [now left|now right].
      - right. destruct (Hbefore 1%nat ltac:(lia)) as [_ Hnf].
        now rewrite Nat.add_1_r in Hnf. }
    rewrite Hcheck.
    destruct (IH (timeout - 5) (v ++ EvSleep 5 :: u ++ w)%list)
      as (w' & Hrun & Hsl & Hpl).
    + intros k Hk. rewrite sleeps_app, Hn', Hs1.
      replace (0 + S (sleeps w) + k)%nat with (sleeps w + S k)%nat by lia.
      apply Hbefore. lia.
    + rewrite sleeps_app, Hn', Hs1.
      now replace (0 + S (sleeps w) + m)%nat
        with (sleeps w + S m)%nat by lia.
    + lia.
    + exists w'. split; [exact Hrun|].
      rewrite Hsl, Hpl, !sleeps_app, !polls_app, Hn', Hp', Hs1, Hp1.
      cbn [status_calls plus]. split; lia.
Qed.

Lemma raise_if_failed_timeline_failed state w :
  state <> "failed"%string ->
  eq_str (job (sleeps w)) "failed" = true ->
  raise_if_failed scan state w =
  (Exc (IndexError 2), EvStatus (Reply (job (sleeps w))) :: w).
Proof.
  intros Hst Hfailed.
  destruct (raise_if_failed_cases scan state w) as [[Hst' _]|[_ Hcheck]];
    [contradiction|].
  rewrite status_job in Hcheck. now rewrite Hfailed in Hcheck.
Qed.

(** The run of a waiter whose job fails after [S m] cycles, while
    another state is waited for. *)
Lemma wait_until_state_timeline_failed state m :
  forall timeout w,
    state <> "failed"%string ->
    (forall k, (k <= m)%nat -> unsettled state (job (sleeps w + k))) ->
    eq_str (job (sleeps w + S m)) "failed" = true ->
    5 * Z.of_nat (S m) < timeout ->
    exists w',
      wait_until_state pformat scan timeout state w
      = (Exc (IndexError 2), w') /\
      sleeps w' = (sleeps w + S m)%nat.
Proof.
  induction m as [|m IH]; intros timeout w Hst Hbefore Hthen Hbudget;
    destruct (not_in_state_timeline state w) as (u & Htest & Hn & _);
    assert (Hnow : in_state state (job (sleeps w)) = false)
      by (destruct (Hbefore 0%nat ltac:(lia)) as [Hne _];
          rewrite Nat.add_0_r in Hne; unfold in_state; rewrite Hne;
          apply andb_false_r);
    rewrite wait_until_state_eq, Htest, Hnow; cbn [negb];
    (destruct (Z.ltb_spec 0 timeout); [|lia]);
    rewrite cycle_in_budget by lia;
    assert (Hs1 : sleeps (EvSleep 5 :: u ++ w) = S (sleeps w))
      by (change (EvSleep 5 :: u ++ w)%list
            with ([EvSleep 5] ++ u ++ w)%list;
          rewrite !sleeps_app, Hn; reflexivity).
  - rewrite raise_if_failed_timeline_failed; trivial.
    + eexists. split; [reflexivity|].
      change (sleeps (EvStatus ?r :: ?w)) with (sleeps w).
      rewrite Hs1. lia.
    + rewrite Hs1. now rewrite Nat.add_1_r in Hthen.
  - destruct (raise_if_failed_timeline state (EvSleep 5 :: u ++ w))
      as (v & Hcheck & Hn' & _).
    { right. rewrite Hs1. destruct (Hbefore 1%nat ltac:(lia)) as [_ Hnf].
      now rewrite Nat.add_1_r in Hnf. }
    rewrite Hcheck.
    destruct (IH (timeout - 5) (v ++ EvSleep 5 :: u ++ w)%list)
      as (w' & Hrun & Hsl); trivial.
    + intros k Hk. rewrite sleeps_app, Hn', Hs1.
      replace (0 + S (sleeps w) + k)%nat with (sleeps w + S k)%nat by lia.
      apply Hbefore. lia.
    + rewrite sleeps_app, Hn', Hs1.
      now replace (0 + S (sleeps w) + S m)%nat
        with (sleeps w + S (S m))%nat by lia.
    + lia.
    + exists w'. split; [exact Hrun|].
      rewrite Hsl, sleeps_app, Hn', Hs1. lia.
Qed.

End Timeline.

Section Sequence.

(** The status source answers its invocations with the values of a
    sequence. *)
Variable scan : Scan.
Variable seq : nat -> value.
Hypothesis status_seq : forall w, status scan w = Reply (seq (polls w)).






End Sequence.

End Facts.

End ApiFacts.

(* ===================================================================== *)
(** ** The properties of the polling protocol *)
(* ===================================================================== *)

Module Protocol.

Import Py Sim Runs PyFacts.
Local Open Scope string_scope.
Local Open Scope Z_scope.

(** C9. When [wait_for_scan] is called with [timeout <= 0], the loop body
    never runs: nothing is polled and nothing is slept, the history is
    left as it was. The [raise] after the loop then reads the variable
    [result], which only the loop body assigns, so the call ends in an
    unbound-variable error and no [WaitTimeError] message is built. *)
Theorem wait_for_scan_unbound_result
  (pformat : dict -> string) (scan_job : string -> world -> reply dict)
  (scan_job_id status : string) (timeout : Z) (w : world) :
  timeout <= 0 ->
  Cli.wait_for_scan pformat scan_job scan_job_id status timeout w =
  (Exc (UnboundLocalError "result"), w).
Proof. apply CliFacts.wait_for_scan_expired. Qed.

Lemma wait_for_scan_unbound_result_at_zero :
  0 <= 0 /\
  Cli.wait_for_scan show (cli_mock ["running"; "completed"]) "1" "completed"
    0 []
  = (Exc (UnboundLocalError "result"), []).
Proof.
  split; [lia|].
  apply (wait_for_scan_unbound_result show
           (cli_mock ["running"; "completed"]) "1" "completed" 0 []).
  lia.
Defined.

(** C10. The message of the [FailedScanException] of [wait_until_state]
    has four [{}] fields, and [format] is given two arguments for them
    (the id of the scan and the state). So the branch for a failed scan,
    whenever it is taken, ends in the [IndexError] of [format], for the
    field of index 2, and no run of [wait_until_state] ever raises
    [FailedScanException]. *)
Theorem failed_scan_message_index_error
  (pformat : dict -> string) (scan : Api.Scan) (state : string) (w : world) :
  state <> "failed"%string ->
  Api.status scan w = Reply (PyStr "failed") ->
  fields Api.failed_template = 4%nat /\
  format Api.failed_template [str (Api._id scan); state]
  = Exc (IndexError 2) /\
  Api.raise_if_failed scan state w
  = (Exc (IndexError 2), EvStatus (Reply (PyStr "failed")) :: w) /\
  forall timeout w0 msg,
    fst (Api.wait_until_state pformat scan timeout state w0)
    <> Exc (FailedScanException msg).
Proof.
  intros Hst Hfailed. split; [reflexivity|].
  split; [apply ApiFacts.format_failed_arity|]. split.
  - destruct (ApiFacts.raise_if_failed_cases scan state w)
      as [[Hst' _]|[_ Hcheck]]; [contradiction|].
    now rewrite Hfailed in Hcheck.
  - intros timeout w0 msg.
    apply ApiFacts.wait_until_state_never_failed_scan.
Qed.

Lemma failed_scan_message_index_error_on_failed_scan :
  Api.raise_if_failed (api_mock ["failed"]) "completed" []
  = (Exc (IndexError 2), [EvStatus (Reply (PyStr "failed"))]).
Proof.
  apply (failed_scan_message_index_error show (api_mock ["failed"])
           "completed" []); [discriminate|reflexivity].
Defined.

(** C8 (scenario D). The state waited for is [failed], the status source
    reports [running], then [failed], and the budget covers one sleep.
    Both waiters return: [wait_for_scan] after two polls and one sleep;
    [wait_until_state] at its first loop test when the two reports are
    the answers to successive calls, and after one cycle when the job
    fails while the waiter sleeps. In no case is the check for a failed
    scan made, and nothing is raised. *)
Theorem failed_as_target_returns
  (pformat : dict -> string) (scan_job_id : string) (timeout : Z) :
  5 < timeout ->
  Cli.wait_for_scan pformat (cli_mock ["running"; "failed"]) scan_job_id
    "failed" timeout []
  = (Ret tt,
     [EvScanJob scan_job_id (Reply (job "failed")); EvSleep 5;
      EvScanJob scan_job_id (Reply (job "running"))]) /\
  Api.wait_until_state pformat (api_mock ["running"; "failed"]) timeout
    "failed" []
  = (Ret tt,
     [EvStatus (Reply (PyStr "failed")); EvStatus (Reply (PyStr "running"))]) /\
  Api.wait_until_state pformat (api_job running_then_failed) timeout
    "failed" []
  = (Ret tt,
     [EvStatus (Reply (PyStr "failed")); EvStatus (Reply (PyStr "failed"));
      EvSleep 5;
      EvStatus (Reply (PyStr "running")); EvStatus (Reply (PyStr "running"))]).
Proof.
  intros Hbudget. split; [|split].
  - apply (CliFacts.wait_for_scan_reached pformat
             (cli_mock ["running"; "failed"]) scan_job_id "failed"
             [job "running"] (job "failed") timeout []).
    + split; [reflexivity|exact I].
    + constructor; [|constructor].
      exists (PyStr "running"). repeat split.
    + reflexivity.
    + exists (PyStr "failed"). split; reflexivity.
    + cbn. lia.
  - rewrite ApiFacts.wait_until_state_eq. reflexivity.
  - rewrite ApiFacts.wait_until_state_eq.
    change (Api.not_in_state (api_job running_then_failed) "failed" [])
      with (@Ret bool true,
            [EvStatus (Reply (PyStr "running"));
             EvStatus (Reply (PyStr "running"))]).
    cbv beta iota.
    destruct (Z.ltb_spec 0 timeout); [|lia].
    rewrite ApiFacts.cycle_in_budget by lia.
    change (Api.raise_if_failed (api_job running_then_failed) "failed" ?w)
      with (@Ret unit tt, w).
    cbv beta iota.
    rewrite ApiFacts.wait_until_state_eq. reflexivity.
Qed.

Lemma failed_as_target_returns_in_default_budget :
  fst (Cli.wait_for_scan show (cli_mock ["running"; "failed"]) "1" "failed"
         900 [])
  = Ret tt.
Proof.
  destruct (failed_as_target_returns show "1" 900) as [Hcli _]; [lia|].
  rewrite Hcli. reflexivity.
Defined.




(** C1, on the code. With the budget 0, [wait_for_scan] does not poll,
    but what it raises is the unbound-variable error for [result], not
    [WaitTimeError]; [wait_until_state] evaluates its loop test, which
    reads the status of the running scan twice, and then returns as if
    the state had been reached. *)
Theorem no_budget_no_wait_time_error :
  Cli.wait_for_scan show (cli_mock ["running"]) "1" "completed" 0 []
  = (Exc (UnboundLocalError "result"), []) /\
  Api.wait_until_state show (api_job (fun _ => PyStr "running")) 0
    "completed" []
  = (Ret tt,
     [EvStatus (Reply (PyStr "running")); EvStatus (Reply (PyStr "running"))]).
Proof. split; reflexivity. Qed.

(** C2, on the code. A scan is waited for to be [completed], runs until
    the first sleep is over and has failed then; the budget is far from
    used up. [wait_for_scan] raises [FailedScanException] at its second
    poll. [wait_until_state] reaches the same branch after its first
    sleep, and ends in the [IndexError] of the message. *)
Theorem failed_scan_in_budget :
  (exists msg,
      Cli.wait_for_scan show (cli_mock ["running"; "failed"]) "1"
        "completed" 900 []
      = (Exc (FailedScanException msg),
         [EvScanJob "1" (Reply (job "failed")); EvSleep 5;
          EvScanJob "1" (Reply (job "running"))])) /\
  Api.wait_until_state show (api_job running_then_failed) 120
    "completed" []
  = (Exc (IndexError 2),
     [EvStatus (Reply (PyStr "failed")); EvSleep 5;
      EvStatus (Reply (PyStr "running")); EvStatus (Reply (PyStr "running"))]).
Proof. split; [eexists|]; vm_compute; reflexivity. Qed.




(** C4, as stated, fails for [wait_until_state]: with a budget of 5, the
    loop test reads [running] twice, the waiter sleeps, the budget is
    found used up, and the status is fetched again for the message. The
    scan has completed in the meantime, so the message says that the
    scan had the state [completed] when it timed out. *)
Lemma timeout_message_fetches_status_again :
  exists msg,
    format Api.timed_out_template
      ["7"; "completed"; "completed"; show (job "unknown"); show []]
    = Ret msg /\
    Api.wait_until_state show (api_mock ["running"; "running"; "completed"])
      5 "completed" []
    = (Exc (WaitTimeError msg),
       [EvResults (Reply []); EvRead (Reply (job "unknown"));
        EvStatus (Reply (PyStr "completed")); EvSleep 5;
        EvStatus (Reply (PyStr "running"));
        EvStatus (Reply (PyStr "running"))]).
Proof. eexists. split; vm_compute; reflexivity. Qed.

(** C4, amended. Whenever [wait_for_scan] raises [WaitTimeError], the
    record in the message is the one that the last poll returned: the
    history ends with that poll and the sleep after it, and nothing is
    fetched for the message. Whenever [wait_until_state] raises
    [WaitTimeError], the status in the message comes from a call of
    [scan.status()] made for the message, after the sleep and the test
    of the budget, and followed by [scan.read()] and
    [scan.results()]. *)
Theorem timeout_message_status
  (pformat : dict -> string) (scan_job : string -> world -> reply dict)
  (id : string) (scan : Api.Scan) (status : string) (timeout : Z)
  (w : world) (msg : string) :
  (fst (Cli.wait_for_scan pformat scan_job id status timeout w)
   = Exc (WaitTimeError msg) ->
   exists r rest,
     snd (Cli.wait_for_scan pformat scan_job id status timeout w)
     = EvSleep 5 :: EvScanJob id (Reply r) :: rest /\
     scan_job id rest = Reply r /\
     format Cli.timeout_template [id; status; pformat r] = Ret msg) /\
  (fst (Api.wait_until_state pformat scan timeout status w)
   = Exc (WaitTimeError msg) ->
   exists s d r rest,
     snd (Api.wait_until_state pformat scan timeout status w)
     = EvResults (Reply r) :: EvRead (Reply d) :: EvStatus (Reply s)
         :: EvSleep 5 :: rest /\
     Api.status scan (EvSleep 5 :: rest) = Reply s /\
     format Api.timed_out_template
       [str (Api._id scan); status; str s; pformat d; pformat r] = Ret msg).
Proof.
  split.
  - intros Hmsg. unfold Cli.wait_for_scan in *.
    destruct (CliFacts.wait_for_scan_from_message pformat scan_job id status
                None timeout w msg Hmsg)
      as (r & Hfmt & [[[=] _]|(rest & Hr & Hsnd)]).
    now exists r, rest.
  - apply ApiFacts.wait_until_state_message.
Qed.

Lemma timeout_message_status_scenario_b :
  exists r rest,
    snd (Cli.wait_for_scan show (cli_mock ["running"; "running"; "running"])
           "1" "completed" 10 [])
    = EvSleep 5 :: EvScanJob "1" (Reply r) :: rest /\
    cli_mock ["running"; "running"; "running"] "1" rest = Reply r /\
    format Cli.timeout_template ["1"; "completed"; show r]
    = format Cli.timeout_template ["1"; "completed"; show (job "running")].
Proof.
  destruct (timeout_message_status show
              (cli_mock ["running"; "running"; "running"]) "1"
              (api_mock []) "completed" 10 []
              (match format Cli.timeout_template
                       ["1"; "completed"; show (job "running")] with
               | Ret m => m
               | Exc _ => EmptyString
               end)) as [Hcli _].
  destruct Hcli as (r & rest & Hsnd & Hr & Hfmt); [vm_compute; reflexivity|].
  exists r, rest. split; [exact Hsnd|]. split; [exact Hr|].
  rewrite Hfmt. vm_compute. reflexivity.
Defined.

(** C5. In every run of a waiter each sleep lasts 5 and the budget that
    is left goes down by exactly 5 with each cycle: a pass that ends
    without [return] or [raise] continues as the loop with [timeout - 5].
    A run sleeps at most [ceil(timeout / 5)] times, and a run that ends
    in [WaitTimeError] has slept exactly that often, so that the number
    of sleeps before the error is at most [ceil(timeout / 5)] and the
    time slept at most [ceil(timeout / 5) * 5]. *)
Theorem sleeps_bounded_by_budget
  (pformat : dict -> string) (scan_job : string -> world -> reply dict)
  (id : string) (scan : Api.Scan) (status : string) (timeout : Z)
  (w : world) (run : outcome unit * world) :
  run = Cli.wait_for_scan pformat scan_job id status timeout w \/
  run = Api.wait_until_state pformat scan timeout status w ->
  (forall result t w0 r w1,
      0 < t ->
      Cli.poll pformat scan_job id status w0 = (Ret (Cli.Continue r), w1) ->
      Cli.wait_for_scan_from pformat scan_job result id status t w0
      = Cli.wait_for_scan_from pformat scan_job (Some r) id status (t - 5) w1) /\
  (forall t w0 w1 w2,
      0 < t ->
      Api.not_in_state scan status w0 = (Ret true, w1) ->
      Api.cycle pformat scan t status w1 = (Ret tt, w2) ->
      Api.wait_until_state pformat scan t status w0
      = Api.wait_until_state pformat scan (t - 5) status w2) /\
  5 * (cycles timeout - 1) < timeout <= 5 * cycles timeout /\
  exists new,
    snd run = (new ++ w)%list /\
    Forall (fun e => is_sleep e = true -> e = EvSleep 5) new /\
    slept new = 5 * Z.of_nat (sleeps new) /\
    Z.of_nat (sleeps new) <= Z.max 0 (cycles timeout) /\
    forall msg,
      fst run = Exc (WaitTimeError msg) ->
      0 < timeout /\
      Z.of_nat (sleeps new) = cycles timeout /\
      Z.of_nat (sleeps new) <= cycles timeout /\
      slept new <= cycles timeout * 5.
Proof.
  intros Hrun. split; [|split; [|split; [apply cycles_ceil|]]].
  - intros result t w0 r w1 Ht Hpoll.
    rewrite CliFacts.wait_for_scan_from_eq, Hpoll.
    destruct (Z.ltb_spec 0 t); [reflexivity|lia].
  - intros t w0 w1 w2 Ht Htest Hcycle.
    rewrite ApiFacts.wait_until_state_eq, Htest, Hcycle.
    destruct (Z.ltb_spec 0 t); [reflexivity|lia].
  - assert (Hsleeps : exists new,
               snd run = (new ++ w)%list /\
               Forall (fun e => is_sleep e = true -> e = EvSleep 5) new /\
               slept new = 5 * Z.of_nat (sleeps new) /\
               Z.of_nat (sleeps new) <= Z.max 0 (cycles timeout) /\
               forall msg,
                 fst run = Exc (WaitTimeError msg) ->
                 Z.of_nat (sleeps new) = Z.max 0 (cycles timeout)).
    { destruct Hrun as [-> | ->].
      - apply CliFacts.wait_for_scan_from_sleeps.
      - apply ApiFacts.wait_until_state_sleeps. }
    destruct Hsleeps as (new & Hw & Hall & Hslept & Hle & Hexact).
    exists new. split; [exact Hw|]. split; [exact Hall|].
    split; [exact Hslept|]. split; [exact Hle|].
    intros msg Hmsg. specialize (Hexact msg Hmsg).
    assert (Hpos : 0 < timeout).
    { destruct (Z.ltb_spec 0 timeout) as [|Hneg]; [assumption|exfalso].
      destruct Hrun as [-> | ->].
      - rewrite CliFacts.wait_for_scan_expired in Hmsg by assumption.
        discriminate.
      - rewrite ApiFacts.wait_until_state_expired in Hmsg by assumption.
        pose proof (ApiFacts.not_in_state_cases scan status w) as Hv.
        destruct Hv; discriminate. }
    pose proof (cycles_pos timeout Hpos). repeat split; lia.
Qed.

Lemma sleeps_bounded_by_budget_scenario_b :
  exists new,
    snd (Cli.wait_for_scan show (cli_mock ["running"; "running"; "running"])
           "1" "completed" 10 [])
    = (new ++ [])%list /\
    Forall (fun e => is_sleep e = true -> e = EvSleep 5) new /\
    Z.of_nat (sleeps new) <= Z.max 0 (cycles 10).
Proof.
  destruct (sleeps_bounded_by_budget show
              (cli_mock ["running"; "running"; "running"]) "1"
              (api_mock []) "completed" 10 []
              (Cli.wait_for_scan show
                 (cli_mock ["running"; "running"; "running"])
                 "1" "completed" 10 []))
    as (_ & _ & _ & new & Hw & Hall & _ & Hle & _).
  - left. reflexivity.
  - exists new. repeat split; assumption.
Defined.

(** C6. When an invocation of the status source (or of another request
    for the message) raises an error, that invocation is the last event
    of the run, so the poll is not tried again, and the run raises that
    very error: it is not caught, and not turned into [WaitTimeError] or
    [FailedScanException]. *)
Theorem status_source_error_propagates
  (pformat : dict -> string) (scan_job : string -> world -> reply dict)
  (id : string) (scan : Api.Scan) (status : string) (timeout : Z)
  (w : world) (run : outcome unit * world) (new : world)
  (ev : event) (f : fault) :
  run = Cli.wait_for_scan pformat scan_job id status timeout w \/
  run = Api.wait_until_state pformat scan timeout status w ->
  snd run = (new ++ w)%list ->
  In ev new ->
  fault_of ev = Some f ->
  fst run = Exc (Propagated f) /\
  (exists rest, new = ev :: rest) /\
  (forall msg, fst run <> Exc (WaitTimeError msg)) /\
  (forall msg, fst run <> Exc (FailedScanException msg)).
Proof.
  intros Hrun Hnew Hin Hf.
  assert (Hfault : fst run = Exc (Propagated f) /\
                   exists rest, new = ev :: rest).
  { destruct Hrun as [-> | ->].
    - destruct (CliFacts.wait_for_scan_from_fault pformat scan_job id status
                  None timeout w) as (new' & Hw & Hfault).
      unfold Cli.wait_for_scan in Hnew. rewrite Hw in Hnew.
      apply app_inv_tail in Hnew as ->. now apply Hfault.
    - destruct (ApiFacts.wait_until_state_fault pformat scan timeout status w)
        as (new' & Hw & Hfault).
      rewrite Hw in Hnew.
      apply app_inv_tail in Hnew as ->. now apply Hfault. }
  destruct Hfault as [Hfst Hrest]. rewrite Hfst.
  repeat split; trivial; discriminate.
Qed.

Lemma status_source_error_propagates_stop_iteration :
  fst (Api.wait_until_state show (api_mock ["running"]) 120 "completed" [])
  = Exc (Propagated "StopIteration").
Proof.
  apply (status_source_error_propagates show (cli_mock []) "1"
           (api_mock ["running"]) "completed" 120 []
           (Api.wait_until_state show (api_mock ["running"]) 120
              "completed" [])
           [EvStatus (Fault "StopIteration");
            EvStatus (Reply (PyStr "running"))]
           (EvStatus (Fault "StopIteration")) "StopIteration").
  - right. reflexivity.
  - vm_compute. reflexivity.
  - left. reflexivity.
  - reflexivity.
Defined.

End Protocol.

(* ===================================================================== *)
(** ** Facts about dictionaries and strings *)
(* ===================================================================== *)

Module DynFacts.

Import Dyn.

Lemma lookup_setitem_same d k v : lookup (setitem d k v) k = Some v.
Proof.
  induction d as [|[k' v'] d IH]; simpl.
  - now rewrite String.eqb_refl.
  - destruct (String.eqb_spec k' k) as [->|Hne]; simpl.
    + now rewrite String.eqb_refl.
    + apply String.eqb_neq in Hne. now rewrite Hne.
Qed.

Lemma lookup_setitem_other d k v q :
  q <> k -> lookup (setitem d k v) q = lookup d q.
Proof.
  intros Hq. induction d as [|[k' v'] d IH]; simpl.
  - destruct (String.eqb_spec k q); [congruence|reflexivity].
  - destruct (String.eqb_spec k' k) as [->|Hne]; simpl.
    + destruct (String.eqb_spec k q); [congruence|reflexivity].
    + now rewrite IH.
Qed.

Lemma lookup_remove_same d k : lookup (remove d k) k = None.
Proof.
  induction d as [|[k' v'] d IH]; simpl; [reflexivity|].
  destruct (String.eqb_spec k' k) as [->|Hne]; simpl; [assumption|].
  apply String.eqb_neq in Hne. now rewrite Hne.
Qed.

Lemma lookup_remove_other d k q :
  q <> k -> lookup (remove d k) q = lookup d q.
Proof.
  intros Hq. induction d as [|[k' v'] d IH]; simpl; [reflexivity|].
  destruct (String.eqb_spec k' k) as [->|Hne]; simpl.
  - destruct (String.eqb_spec k q); [congruence|assumption].
  - now rewrite IH.
Qed.

Lemma lookup_none_keys d k : lookup d k = None <-> ~ In k (map fst d).
Proof.
  induction d as [|[k' v'] d IH]; simpl; [tauto|].
  destruct (String.eqb_spec k' k) as [->|Hne].
  - split; [discriminate|]. intros H. exfalso. apply H. now left.
  - rewrite IH. tauto.
Qed.

Lemma keys_setitem_present d k v :
  lookup d k <> None -> map fst (setitem d k v) = map fst d.
Proof.
  induction d as [|[k' v'] d IH]; simpl; [congruence|].
  destruct (String.eqb_spec k' k) as [->|Hne]; simpl; [reflexivity|].
  intros H. now rewrite IH.
Qed.

Lemma keys_setitem_absent d k v :
  lookup d k = None -> map fst (setitem d k v) = (map fst d ++ [k])%list.
Proof.
  induction d as [|[k' v'] d IH]; simpl; [reflexivity|].
  destruct (String.eqb_spec k' k) as [->|Hne]; simpl; [discriminate|].
  intros H. now rewrite IH.
Qed.

Lemma distinct_keys_setitem d k v :
  distinct_keys d -> distinct_keys (setitem d k v).
Proof.
  unfold distinct_keys. intros Hd.
  destruct (lookup d k) eqn:Hk.
  - rewrite keys_setitem_present; [assumption|congruence].
  - rewrite keys_setitem_absent by assumption.
    apply NoDup_app; [assumption|repeat constructor; intros []|].
    intros x Hx [<-|[]]. now apply lookup_none_keys in Hk.
Qed.

Lemma keys_remove d k x :
  In x (map fst (remove d k)) <-> In x (map fst d) /\ x <> k.
Proof.
  induction d as [|[k' v'] d IH]; simpl; [tauto|].
  destruct (String.eqb_spec k' k) as [->|Hne]; simpl.
  - rewrite IH. split; [tauto|]. intros [[<-|H] Hx]; [congruence|tauto].
  - rewrite IH. split; [|tauto]. intros [<-|H]; tauto.
Qed.

Lemma distinct_keys_remove d k :
  distinct_keys d -> distinct_keys (remove d k).
Proof.
  unfold distinct_keys. induction d as [|[k' v'] d IH]; simpl; [trivial|].
  intros Hd. inversion Hd as [|? ? Hnotin Hd']; subst.
  destruct (String.eqb_spec k' k) as [->|Hne]; simpl; [now apply IH|].
  constructor; [|now apply IH].
  intros Hin. apply keys_remove in Hin. tauto.
Qed.

Lemma occurs_replace old new s :
  old <> new -> occurs old (replace old new s) = false.
Proof.
  intros Hne. induction s as [|c s IH]; simpl; [reflexivity|].
  rewrite IH, orb_false_r.
  destruct (Ascii.eqb_spec c old) as [->|Hc].
  - apply Ascii.eqb_neq. congruence.
  - now apply Ascii.eqb_neq.
Qed.

Lemma replace_absent old new s :
  occurs old s = false -> replace old new s = s.
Proof.
  induction s as [|c s IH]; simpl; [reflexivity|].
  intros H. apply orb_false_iff in H as [Hc Hs].
  now rewrite Hc, IH.
Qed.

Lemma lookup_app a b q :
  lookup (a ++ b) q =
  match lookup a q with
  | Some v => Some v
  | None => lookup b q
  end.
Proof.
  induction a as [|[k v] a IH]; simpl; [reflexivity|].
  now destruct (String.eqb k q).
Qed.

Lemma setitem_setitem d k v v' :
  setitem (setitem d k v) k v' = setitem d k v'.
Proof.
  induction d as [|[k0 v0] d IH]; simpl.
  - now rewrite String.eqb_refl.
  - destruct (String.eqb_spec k0 k) as [->|Hne]; simpl.
    + now rewrite String.eqb_refl.
    + apply String.eqb_neq in Hne. now rewrite Hne, IH.
Qed.

End DynFacts.

(* ===================================================================== *)
(** ** Facts about the readers of the configuration *)
(* ===================================================================== *)

Module ConfigFacts.

Import Dyn Config DynFacts.
Local Open Scope string_scope.

Lemma network_only_typed items :
  Forall has_type items ->
  network_only items = Ok (filter is_network items).
Proof.
  induction 1 as [|s items [t Ht] _ IH]; simpl; [reflexivity|].
  unfold is_network. rewrite Ht, IH. simpl.
  now destruct (is_str t "network").
Qed.

Lemma network_only_untyped items :
  Forall is_dict items -> Exists lacks_type items ->
  network_only items = Raise (KeyError "type").
Proof.
  induction 1 as [|s items [d ->] _ IH]; intros Hex;
    [inversion Hex|]. simpl.
  destruct (lookup d "type") as [t|] eqn:Ht; simpl; [|reflexivity].
  rewrite IH; [reflexivity|].
  inversion Hex as [? ? Hhead|? ? Hrest]; subst; [|exact Hrest].
  destruct Hhead as (d' & Heq & Hnone). injection Heq as <-. congruence.
Qed.

Lemma first_network_typed items :
  Forall has_type items ->
  first_network items =
  Ok match filter is_network items with
     | s :: _ => Some [s]
     | [] => None
     end.
Proof.
  induction 1 as [|s items [t Ht] _ IH]; simpl; [reflexivity|].
  unfold is_network. rewrite Ht. simpl.
  destruct (is_str t "network"); [reflexivity|assumption].
Qed.

Lemma first_network_of_network_only items :
  forall s rest,
    network_only items = Ok (s :: rest) ->
    first_network items = Ok (Some [s]).
Proof.
  induction items as [|x items IH]; simpl; intros s rest H; [discriminate|].
  destruct (subscript x "type") as [t|e]; simpl in *; [|discriminate].
  destruct (network_only items) as [selected|e]; simpl in *; [|discriminate].
  destruct (is_str t "network").
  - now injection H as -> _.
  - injection H as ->. now apply (IH s rest).
Qed.

(** The sources that a configuration holds under [qcs], [sources]. *)
Lemma sources_of_config_list c q items :
  lookup c "qcs" = Some (JDict q) ->
  lookup q "sources" = Some (JList items) ->
  sources_of_config (Ok (JDict c)) = Ok items.
Proof.
  intros Hq Hs. unfold sources_of_config. simpl.
  rewrite Hq. simpl. now rewrite Hs.
Qed.

(** X1. [network_sources] returns the sources of the configuration whose
    type is [network], in the order of the configuration, when every
    source has a type. *)
Theorem network_sources_filters c q items :
  lookup c "qcs" = Some (JDict q) ->
  lookup q "sources" = Some (JList items) ->
  Forall has_type items ->
  network_sources (Ok (JDict c)) = Ok (filter is_network items).
Proof.
  intros Hq Hs Htyped. unfold network_sources.
  rewrite (sources_of_config_list c q items Hq Hs). simpl.
  now rewrite network_only_typed.
Qed.

Lemma network_sources_filters_example :
  network_sources (Ok example_config)
  = Ok [nth 0 example_sources JNone; nth 2 example_sources JNone].
Proof.
  apply (network_sources_filters
           [("credentials", JList []);
            ("qcs", JDict [("hostname", JStr "http://qcs.example.com:8000");
                           ("sources", JList example_sources)])]
           [("hostname", JStr "http://qcs.example.com:8000");
            ("sources", JList example_sources)]
           example_sources).
  - reflexivity.
  - reflexivity.
  - repeat constructor; eexists; reflexivity.
Defined.

(** X2. One source without the key [type] makes [network_sources] return
    the empty list, whatever the other sources are: the [KeyError] of
    the comprehension is caught together with that of a missing section. *)
Theorem network_sources_untyped_source c q items :
  lookup c "qcs" = Some (JDict q) ->
  lookup q "sources" = Some (JList items) ->
  Forall is_dict items ->
  Exists lacks_type items ->
  network_sources (Ok (JDict c)) = Ok [].
Proof.
  intros Hq Hs Hdicts Hlacks. unfold network_sources.
  rewrite (sources_of_config_list c q items Hq Hs). simpl.
  now rewrite network_only_untyped.
Qed.

Lemma network_sources_untyped_source_example :
  network_sources
    (Ok (JDict [("qcs", JDict [("sources",
                                JList [JDict [("type", JStr "network")];
                                       JDict [("name", JStr "untyped")]])])]))
  = Ok [].
Proof.
  apply (network_sources_untyped_source
           [("qcs", JDict [("sources",
                            JList [JDict [("type", JStr "network")];
                                   JDict [("name", JStr "untyped")]])])]
           [("sources", JList [JDict [("type", JStr "network")];
                               JDict [("name", JStr "untyped")]])]
           [JDict [("type", JStr "network")];
            JDict [("name", JStr "untyped")]]).
  - reflexivity.
  - reflexivity.
  - repeat constructor; eexists; reflexivity.
  - apply Exists_cons_tl, Exists_cons_hd. eexists. split; reflexivity.
Defined.

(** X3. Without a configuration file, without the section [qcs] or
    without its key [sources], [network_sources] and [config_sources]
    return the empty list and [first_network_source] returns the default
    source for [localhost]; [config_credentials] returns the empty list
    without a file or without the key [credentials]. *)
Theorem readers_default get_config :
  get_config = Raise ConfigFileNotFoundError \/
  (exists c,
      get_config = Ok (JDict c) /\
      (lookup c "qcs" = None \/
       exists q, lookup c "qcs" = Some (JDict q) /\
                 lookup q "sources" = None)) ->
  network_sources get_config = Ok [] /\
  first_network_source get_config = Ok [default_source] /\
  config_sources get_config = Ok (JList []) /\
  (get_config = Raise ConfigFileNotFoundError \/
   (exists c, get_config = Ok (JDict c) /\ lookup c "credentials" = None) ->
   config_credentials get_config = Ok (JList [])).
Proof.
  intros H. repeat split.
  1-3: unfold network_sources, first_network_source, config_sources,
         sources_of_config;
       destruct H as [->|(c & -> & [Hq|(q & Hq & Hs)])]; simpl;
       rewrite ?Hq; simpl; rewrite ?Hs; reflexivity.
  unfold config_credentials.
  intros [->|(c & -> & Hc)]; simpl; rewrite ?Hc; reflexivity.
Qed.

Lemma readers_default_without_file :
  first_network_source (Raise ConfigFileNotFoundError) = Ok [default_source].
Proof.
  apply (readers_default (Raise ConfigFileNotFoundError)). now left.
Defined.

(** X4. When the configuration lists sources, each with a type, and none
    of them is a network source (the list may be empty),
    [first_network_source] leaves [src] unassigned and fails with the
    unbound-variable error instead of returning the default source. *)
Theorem first_network_source_unbound c q items :
  lookup c "qcs" = Some (JDict q) ->
  lookup q "sources" = Some (JList items) ->
  Forall has_type items ->
  filter is_network items = [] ->
  first_network_source (Ok (JDict c)) = Raise (UnboundLocalError "src").
Proof.
  intros Hq Hs Htyped Hnone. unfold first_network_source.
  rewrite (sources_of_config_list c q items Hq Hs). simpl.
  now rewrite first_network_typed, Hnone.
Qed.

Lemma first_network_source_unbound_no_sources :
  first_network_source (Ok (JDict [("qcs", JDict [("sources", JList [])])]))
  = Raise (UnboundLocalError "src").
Proof.
  apply (first_network_source_unbound
           [("qcs", JDict [("sources", JList [])])]
           [("sources", JList [])] []).
  - reflexivity.
  - reflexivity.
  - constructor.
  - reflexivity.
Defined.

(** X5. When [network_sources] finds network sources,
    [first_network_source] returns the one-element list of the first of
    them. *)
Theorem first_network_source_heads_network_sources get_config s rest :
  network_sources get_config = Ok (s :: rest) ->
  first_network_source get_config = Ok [s].
Proof.
  unfold network_sources, first_network_source.
  destruct (sources_of_config get_config) as [items|e]; simpl.
  - destruct (network_only items) as [selected|e] eqn:Hsel; simpl.
    + intros [= ->].
      now rewrite (first_network_of_network_only items s rest Hsel).
    + destruct e; discriminate.
  - destruct e; discriminate.
Qed.

Lemma first_network_source_heads_network_sources_example :
  first_network_source (Ok example_config) = Ok [nth 0 example_sources JNone].
Proof.
  apply (first_network_source_heads_network_sources (Ok example_config)
           (nth 0 example_sources JNone) [nth 2 example_sources JNone]).
  reflexivity.
Defined.

(** X6. The two readers of the sources agree: whatever list
    [config_sources] of [test_scans.py] returns, [network_sources] of
    [utils.py] returns its network sources, provided every source in it
    has a type. *)
Theorem network_sources_of_config_sources get_config items :
  config_sources get_config = Ok (JList items) ->
  Forall has_type items ->
  network_sources get_config = Ok (filter is_network items).
Proof.
  unfold config_sources, network_sources, sources_of_config.
  destruct get_config as [cfg|e]; simpl.
  - destruct cfg as [| | | | |c]; simpl; try discriminate.
    destruct (lookup c "qcs") as [qcs|]; simpl.
    + destruct qcs as [| | | | |q]; simpl; try discriminate.
      destruct (lookup q "sources") as [sources|]; simpl.
      * intros [= ->] Htyped. simpl. now rewrite network_only_typed.
      * now intros [= <-] _.
    + now intros [= <-] _.
  - destruct e; simpl; try discriminate. now intros [= <-] _.
Qed.

Lemma network_sources_of_config_sources_example :
  network_sources (Ok example_config) = Ok (filter is_network example_sources).
Proof.
  apply (network_sources_of_config_sources (Ok example_config) example_sources).
  - reflexivity.
  - repeat constructor; eexists; reflexivity.
Defined.

End ConfigFacts.

(* ===================================================================== *)
(** ** Facts about the fixtures of [test_scans.py] *)
(* ===================================================================== *)

Module FixtureFacts.

Import Dyn Config DynFacts.
Local Open Scope string_scope.

Lemma lookup_add_options options d q :
  lookup (add_options options d) q =
  match last_option options q with
  | Some v => Some v
  | None => lookup d q
  end.
Proof.
  revert d. induction options as [|[k v] options IH]; intros d;
    [reflexivity|].
  unfold add_options, last_option in *. simpl.
  rewrite IH, lookup_app. simpl.
  destruct (lookup (rev (map _ options)) q); [reflexivity|].
  destruct (String.eqb_spec (dashed k) q) as [<-|Hne].
  - apply lookup_setitem_same.
  - apply lookup_setitem_other. congruence.
Qed.

Lemma last_option_none options q :
  last_option options q = None <->
  forall k v, In (k, v) options -> dashed k <> q.
Proof.
  unfold last_option.
  rewrite lookup_none_keys, map_rev, <- in_rev, map_map. simpl.
  rewrite in_map_iff. split.
  - intros H k v Hin Heq. apply H. now exists (k, v).
  - intros H ([k v] & Heq & Hin). now apply (H k v).
Qed.

Lemma distinct_keys_add_options options d :
  distinct_keys d -> distinct_keys (add_options options d).
Proof.
  revert d. induction options as [|[k v] options IH]; intros d Hd;
    [assumption|].
  apply IH. now apply distinct_keys_setitem.
Qed.

Lemma prepare_source_ok source credentials options :
  lookup source "credentials" = Some credentials ->
  options_of source options ->
  prepare_source source =
  (Ok tt,
   add_options options
     (remove (setitem (remove source "credentials") "cred" credentials)
        "options")).
Proof.
  intros Hc Ho. unfold prepare_source. rewrite Hc. cbv zeta.
  rewrite lookup_setitem_other, lookup_remove_other by discriminate.
  destruct Ho as [->|[-> ->]]; reflexivity.
Qed.

(** X7. What [setup_sources] leaves in a source that has credentials and
    whose options, if any, are a dictionary: under each key, the value of
    the last option whose key, with dashes for underscores, is that key;
    for a key that no option sets, the old credentials under ['cred'],
    nothing under ['credentials'] and ['options'], and what was there
    under every other key. *)
Theorem prepare_source_lookup source credentials options q :
  lookup source "credentials" = Some credentials ->
  options_of source options ->
  fst (prepare_source source) = Ok tt /\
  lookup (snd (prepare_source source)) q =
  match last_option options q with
  | Some v => Some v
  | None =>
      if q =? "cred" then Some credentials
      else if (q =? "credentials") || (q =? "options") then None
      else lookup source q
  end.
Proof.
  intros Hc Ho. rewrite (prepare_source_ok source credentials options Hc Ho).
  split; [reflexivity|]. cbn [snd]. rewrite lookup_add_options.
  destruct (last_option options q); [reflexivity|].
  destruct (String.eqb_spec q "options") as [->|Hno].
  - cbn. apply lookup_remove_same.
  - rewrite lookup_remove_other by assumption.
    destruct (String.eqb_spec q "cred") as [->|Hnc].
    + apply lookup_setitem_same.
    + rewrite lookup_setitem_other by assumption.
      destruct (String.eqb_spec q "credentials") as [->|Hncs]; cbn [orb].
      * apply lookup_remove_same.
      * now apply lookup_remove_other.
Qed.

Lemma prepare_source_lookup_example :
  lookup (snd (prepare_source example_source)) "ssl-cert-verify"
  = Some (JBool false).
Proof.
  apply (prepare_source_lookup example_source (JList [JStr "root"])
           [("ssl_cert_verify", JBool false); ("disable_ssl", JBool true)]
           "ssl-cert-verify").
  - reflexivity.
  - left. reflexivity.
Defined.

(** X8. Every option of a source ends up as a key of the source, with
    dashes for its underscores: the key is there, and has no underscore
    in it. *)
Theorem prepare_source_options_dashed source credentials options k v :
  lookup source "credentials" = Some credentials ->
  options_of source options ->
  In (k, v) options ->
  has_key (snd (prepare_source source)) (dashed k) = true /\
  occurs "_" (dashed k) = false.
Proof.
  intros Hc Ho Hin. split; [|now apply occurs_replace].
  unfold has_key.
  destruct (prepare_source_lookup source credentials options (dashed k) Hc Ho)
    as [_ ->].
  destruct (last_option options (dashed k)) eqn:Hlast; [reflexivity|].
  exfalso. rewrite last_option_none in Hlast. now apply (Hlast k v).
Qed.

Lemma prepare_source_options_dashed_example :
  has_key (snd (prepare_source example_source)) "disable-ssl" = true /\
  occurs "_" "disable-ssl" = false.
Proof.
  apply (prepare_source_options_dashed example_source (JList [JStr "root"])
           [("ssl_cert_verify", JBool false); ("disable_ssl", JBool true)]
           "disable_ssl" (JBool true)).
  - reflexivity.
  - left. reflexivity.
  - right. left. reflexivity.
Defined.

(** X9. [setup_sources] cannot go over the same source twice: once a
    source has been prepared, and unless one of its options was itself
    called [credentials], preparing it again raises [KeyError] for
    ['credentials'] and leaves it as it is. *)
Theorem prepare_source_twice source credentials options :
  lookup source "credentials" = Some credentials ->
  options_of source options ->
  (forall k v, In (k, v) options -> dashed k <> "credentials") ->
  prepare_source (snd (prepare_source source)) =
  (Raise (KeyError "credentials"), snd (prepare_source source)).
Proof.
  intros Hc Ho Hnames.
  destruct (prepare_source_lookup source credentials options "credentials"
              Hc Ho) as [_ Hlookup].
  apply last_option_none in Hnames. rewrite Hnames in Hlookup. cbn in Hlookup.
  unfold prepare_source at 1. now rewrite Hlookup.
Qed.

Lemma prepare_source_twice_example :
  fst (prepare_source (snd (prepare_source example_source)))
  = Raise (KeyError "credentials").
Proof.
  rewrite (prepare_source_twice example_source (JList [JStr "root"])
             [("ssl_cert_verify", JBool false); ("disable_ssl", JBool true)]).
  - reflexivity.
  - reflexivity.
  - left. reflexivity.
  - intros k v [[= <- <-]|[[= <- <-]|[]]]; discriminate.
Defined.

(** X10. [setup_sources] keeps the keys of a source distinct, whether it
    succeeds or raises. *)
Theorem prepare_source_distinct_keys source :
  distinct_keys source -> distinct_keys (snd (prepare_source source)).
Proof.
  intros Hd. unfold prepare_source.
  destruct (lookup source "credentials") as [c|]; [|assumption].
  cbv zeta.
  assert (Hd' : distinct_keys
                  (remove (setitem (remove source "credentials") "cred" c)
                     "options"))
    by now apply distinct_keys_remove, distinct_keys_setitem,
         distinct_keys_remove.
  destruct (lookup _ "options") as [[| | | | |opts]|]; trivial.
  cbn [snd]. now apply distinct_keys_add_options.
Qed.

Lemma prepare_source_distinct_keys_example :
  distinct_keys (snd (prepare_source example_source)).
Proof.
  apply (prepare_source_distinct_keys example_source).
  unfold distinct_keys. cbn.
  repeat (constructor; [cbn; intuition discriminate|]). constructor.
Defined.

(** X11. The errors of [setup_sources] on one source. A source without
    credentials raises [KeyError] and is not touched. Options that are
    not a dictionary raise [AttributeError], but only after the source
    has been changed: its credentials are under ['cred'] by then, and
    ['credentials'] and ['options'] are gone. *)
Theorem prepare_source_errors source :
  (lookup source "credentials" = None ->
   prepare_source source = (Raise (KeyError "credentials"), source)) /\
  (forall credentials options,
      lookup source "credentials" = Some credentials ->
      lookup source "options" = Some options ->
      (forall d, options <> JDict d) ->
      fst (prepare_source source) = Raise (AttributeError "items") /\
      lookup (snd (prepare_source source)) "cred" = Some credentials /\
      lookup (snd (prepare_source source)) "credentials" = None /\
      lookup (snd (prepare_source source)) "options" = None).
Proof.
  split.
  - intros Hc. unfold prepare_source. now rewrite Hc.
  - intros c o Hc Ho Hnodict. unfold prepare_source. rewrite Hc. cbv zeta.
    rewrite lookup_setitem_other, lookup_remove_other, Ho by discriminate.
    destruct o as [| | | | |d]; try (now destruct (Hnodict d)); cbn [fst snd];
      (split; [reflexivity|]);
      rewrite lookup_remove_same, !lookup_remove_other by discriminate;
      rewrite lookup_setitem_same, lookup_setitem_other by discriminate;
      rewrite lookup_remove_same; repeat split.
Qed.

Lemma prepare_source_errors_example :
  prepare_source [("name", JStr "alpha")]
  = (Raise (KeyError "credentials"), [("name", JStr "alpha")]).
Proof.
  apply (prepare_source_errors [("name", JStr "alpha")]). reflexivity.
Defined.

(** X12. What [setup_credentials] does to one credential: the keys stay
    the same, in the same order; a password and a become-password that
    are there are replaced by [None] in the dictionary that goes to
    [cred_add], and are handed over as answers to their prompts instead,
    the password first; every other entry is left alone. *)
Theorem blank_passwords_moves_secrets connection become credential q :
  let blanked := fst (blank_passwords connection become credential) in
  let inputs := snd (blank_passwords connection become credential) in
  map fst blanked = map fst credential /\
  (q = "password" \/ q = "become-password" ->
   lookup blanked q = option_map (fun _ => JNone) (lookup credential q)) /\
  (q <> "password" -> q <> "become-password" ->
   lookup blanked q = lookup credential q) /\
  inputs =
  (match lookup credential "password" with
   | Some p => [(connection, p)]
   | None => []
   end ++
   match lookup credential "become-password" with
   | Some p => [(become, p)]
   | None => []
   end)%list.
Proof.
  unfold blank_passwords.
  destruct (lookup credential "password") as [p|] eqn:Hp;
    [rewrite lookup_setitem_other by discriminate|];
    (destruct (lookup credential "become-password") as [b|] eqn:Hb);
    cbn [fst snd].
  - repeat split.
    + rewrite !keys_setitem_present; trivial; [congruence|].
      rewrite lookup_setitem_other by discriminate. congruence.
    + intros [->| ->].
      * rewrite lookup_setitem_other, lookup_setitem_same, Hp by discriminate.
        reflexivity.
      * now rewrite lookup_setitem_same, Hb.
    + intros H1 H2. now rewrite !lookup_setitem_other.
  - repeat split.
    + rewrite keys_setitem_present; trivial; congruence.
    + intros [->| ->].
      * now rewrite lookup_setitem_same, Hp.
      * rewrite lookup_setitem_other, Hb by discriminate. reflexivity.
    + intros H1 H2. now rewrite lookup_setitem_other.
  - repeat split.
    + rewrite keys_setitem_present; trivial; congruence.
    + intros [->| ->].
      * rewrite lookup_setitem_other, Hp by discriminate. reflexivity.
      * now rewrite lookup_setitem_same, Hb.
    + intros H1 H2. now rewrite lookup_setitem_other.
  - repeat split. intros [->| ->]; [now rewrite Hp|now rewrite Hb].
Qed.

Lemma blank_passwords_moves_secrets_example :
  lookup (fst (blank_passwords "Password: " "Become: " example_credential))
    "password"
  = Some JNone.
Proof.
  apply (blank_passwords_moves_secrets "Password: " "Become: "
           example_credential "password").
  left. reflexivity.
Defined.

(** X13. Going over the same credential a second time leaves the
    dictionary as the first pass left it, and answers every prompt of
    the first pass with [None]: the passwords are no longer there to be
    handed over. *)
Theorem blank_passwords_twice connection become credential :
  blank_passwords connection become
    (fst (blank_passwords connection become credential)) =
  (fst (blank_passwords connection become credential),
   map (fun input => (fst input, JNone))
     (snd (blank_passwords connection become credential))).
Proof.
  unfold blank_passwords.
  destruct (lookup credential "password") as [p|] eqn:Hp;
    [rewrite lookup_setitem_other by discriminate|];
    (destruct (lookup credential "become-password") as [b|] eqn:Hb);
    cbn [fst snd].
  - rewrite lookup_setitem_other, lookup_setitem_same by discriminate.
    assert (Hswap :
              setitem (setitem (setitem credential "password" JNone)
                         "become-password" JNone) "password" JNone
              = setitem (setitem credential "password" JNone)
                  "become-password" JNone).
    { clear. induction credential as [|[k v] d IH]; [reflexivity|].
      simpl. destruct (String.eqb_spec k "password") as [->|Hk]; simpl.
      - reflexivity.
      - destruct (String.eqb_spec k "become-password") as [->|Hk']; simpl.
        + now rewrite setitem_setitem.
        + apply String.eqb_neq in Hk. rewrite Hk. now rewrite IH. }
    rewrite Hswap, lookup_setitem_same, setitem_setitem. reflexivity.
  - rewrite lookup_setitem_same, setitem_setitem.
    rewrite lookup_setitem_other, Hb by discriminate. reflexivity.
  - rewrite lookup_setitem_other, Hp by discriminate.
    rewrite lookup_setitem_same, setitem_setitem. reflexivity.
  - now rewrite Hp, Hb.
Qed.

End FixtureFacts.

(* ===================================================================== *)
(** ** Facts about the client of the API *)
(* ===================================================================== *)

Module ClientFacts.

Import Dyn Client.
Local Open Scope string_scope.
Local Open Scope Z_scope.

Section Facts.

Variable urljoin : string -> string -> string.
Variable QCS_API_VERSION : string.

(** The last two checks of [__init__], on the URL that the first part
    has come to. *)
Lemma init_explicit (cfg : dict) handler u :
  u <> EmptyString ->
  init urljoin QCS_API_VERSION (Ok (JDict cfg)) handler (Some u) =
  if (urljoin u QCS_API_VERSION =? EmptyString)%string
  then Raise (QCSBaseUrlNotFound no_url_message)
  else if negb (contains "http" (urljoin u QCS_API_VERSION))
  then Raise (QCSBaseUrlNotFound bad_url_message)
  else Ok {| url := urljoin u QCS_API_VERSION;
             response_handler :=
               match handler with
               | None => code_handler
               | Some h => h
               end |}.
Proof.
  intros Hu. apply String.eqb_neq in Hu.
  unfold init. simpl.
  destruct (lookup cfg "qcs") as [qcs|]; simpl; rewrite Hu; simpl;
    rewrite ?andb_false_r; simpl; reflexivity.
Qed.

(** The checks of [__init__] on the URL. *)
Lemma init_checks (u : string) handler c :
  (if (u =? EmptyString)%string
   then Raise (QCSBaseUrlNotFound no_url_message)
   else if negb (contains "http" u)
   then Raise (QCSBaseUrlNotFound bad_url_message)
   else Ok {| url := u;
              response_handler :=
                match handler with
                | None => code_handler
                | Some h => h
                end |}) = Ok c ->
  u = url c /\
  contains "http" (url c) = true /\
  url c <> EmptyString /\
  response_handler c = match handler with
                       | None => code_handler
                       | Some h => h
                       end.
Proof.
  destruct (String.eqb_spec u EmptyString) as [|Hu]; [discriminate|].
  destruct (contains "http" u) eqn:Hhttp; [|discriminate].
  cbn [negb]. intros [= <-]. now repeat split.
Qed.

(** X14. A client that [__init__] has built has a base URL that is not
    empty and has ["http"] in it; the URL is [urljoin] of the version of
    the API onto the argument [url], when one is given, and onto the
    [hostname] of the section [qcs] of the configuration otherwise; the
    handler is [code_handler] unless another one is given. *)
Theorem init_url get_config handler u c :
  init urljoin QCS_API_VERSION get_config handler u = Ok c ->
  contains "http" (url c) = true /\
  url c <> EmptyString /\
  response_handler c = match handler with
                       | None => code_handler
                       | Some h => h
                       end /\
  exists base,
    url c = urljoin base QCS_API_VERSION /\
    ((u = Some base /\ base <> EmptyString) \/
     ((u = None \/ u = Some EmptyString) /\
      exists cfg qcs,
        get_config = Ok (JDict cfg) /\
        lookup cfg "qcs" = Some (JDict qcs) /\
        lookup qcs "hostname" = Some (JStr base))).
Proof.
  unfold init. destruct get_config as [cfg|e]; [|discriminate]. cbn [bind].
  destruct cfg as [| | | | |cfg]; try discriminate. cbn [get].
  assert (Hhost :
            forall qcs self_url,
              (hostname <- get qcs "hostname" JNone ;;
               if negb (truthy hostname)
               then Raise (QCSBaseUrlNotFound no_hostname_message)
               else joined <- join_version urljoin QCS_API_VERSION hostname ;;
                    Ok (Some joined))%dyn = Ok self_url ->
              exists base q,
                qcs = JDict q /\ lookup q "hostname" = Some (JStr base) /\
                self_url = Some (urljoin base QCS_API_VERSION)).
  { intros qcs self_url.
    destruct qcs as [| | | | |q]; try discriminate. cbn [get].
    destruct (lookup q "hostname") as [hostname|] eqn:Hhost; cbn [bind];
      [|discriminate].
    destruct (truthy hostname); cbn [negb]; [|discriminate].
    destruct hostname as [| | |h| |]; try discriminate.
    cbn [join_version bind]. intros [= <-]. now exists h, q. }
  destruct (lookup cfg "qcs") as [qcs|] eqn:Hqcs; cbn [bind];
    (destruct u as [u|];
     [destruct (String.eqb_spec u EmptyString) as [->|Hu]|]);
    cbn [negb andb]; rewrite ?andb_true_r, ?andb_false_r;
    try (destruct (truthy qcs) eqn:Htruthy);
    try (change (truthy JNone) with false; cbv iota);
    lazymatch goal with
    | |- bind (bind _ _) _ = _ -> _ =>
        let Hrun := fresh "Hrun" in
        let Hfirst := fresh "Hfirst" in
        intros Hrun;
        match type of Hrun with
        | bind ?m _ = _ => destruct m as [self_url|] eqn:Hfirst
        end; [|discriminate];
        cbn [bind] in Hrun;
        apply Hhost in Hfirst as (base & q & -> & Hbase & ->);
        apply init_checks in Hrun as (Hurl & Hhttp & Hne & Hh);
        repeat split; trivial; exists base; (split; [congruence|]);
        right; (split; [tauto|]); now exists cfg, q
    | |- _ => cbn [bind]; intros Hrun; try discriminate;
              apply init_checks in Hrun as (Hurl & Hhttp & Hne & Hh);
              repeat split; trivial; exists u; (split; [congruence|]);
              now left
    end.
Qed.

Lemma contains_nonempty sub u :
  sub <> EmptyString -> contains sub u = true -> u <> EmptyString.
Proof.
  intros Hsub Hc ->. destruct sub; [congruence|discriminate].
Qed.

(** X15. The argument [url] wins over the configuration: when it is a
    non-empty string whose join with the version of the API has ["http"]
    in it, [__init__] builds the client on it whatever the configuration
    file says, also when the section [qcs] of the file has no hostname or
    is no dictionary at all. *)
Theorem init_url_argument_wins (cfg : dict) handler u :
  u <> EmptyString ->
  contains "http" (urljoin u QCS_API_VERSION) = true ->
  init urljoin QCS_API_VERSION (Ok (JDict cfg)) handler (Some u) =
  Ok {| url := urljoin u QCS_API_VERSION;
        response_handler :=
          match handler with
          | None => code_handler
          | Some h => h
          end |}.
Proof.
  intros Hu Hhttp. rewrite init_explicit by assumption.
  assert (Hne : urljoin u QCS_API_VERSION <> EmptyString)
    by (eapply contains_nonempty; [|exact Hhttp]; discriminate).
  apply String.eqb_neq in Hne. now rewrite Hne, Hhttp.
Qed.

(** X16. The errors of [__init__]. An error of [get_config] gets out,
    also when the argument [url] is given. Without the argument [url],
    a configuration whose section [qcs] is missing or empty raises
    [QCSBaseUrlNotFound] for the missing base URL, and a section [qcs]
    with other keys but no hostname (or an empty one) raises it for the
    missing hostname. An argument [url] whose join with the version has
    no ["http"] in it is refused. *)
Theorem init_errors (cfg : dict) handler u e :
  init urljoin QCS_API_VERSION (Raise e) handler u = Raise e /\
  (no_url u ->
   falsy_at cfg "qcs" ->
   init urljoin QCS_API_VERSION (Ok (JDict cfg)) handler u
   = Raise (QCSBaseUrlNotFound no_url_message)) /\
  (forall qcs,
      no_url u ->
      lookup cfg "qcs" = Some (JDict qcs) -> qcs <> [] ->
      falsy_at qcs "hostname" ->
      init urljoin QCS_API_VERSION (Ok (JDict cfg)) handler u
      = Raise (QCSBaseUrlNotFound no_hostname_message)) /\
  (forall base,
      u = Some base -> base <> EmptyString ->
      urljoin base QCS_API_VERSION <> EmptyString ->
      contains "http" (urljoin base QCS_API_VERSION) = false ->
      init urljoin QCS_API_VERSION (Ok (JDict cfg)) handler u
      = Raise (QCSBaseUrlNotFound bad_url_message)).
Proof.
  split; [reflexivity|]. split; [|split].
  - intros [->| ->] [Hq|(v & Hq & Hv)]; unfold init; simpl; rewrite Hq;
      simpl; rewrite ?Hv; reflexivity.
  - intros qcs Hu Hq Hne Hh.
    assert (Htruthy : truthy (JDict qcs) = true)
      by (destruct qcs; [congruence|reflexivity]).
    destruct Hu as [->| ->]; unfold init; cbn [bind get]; rewrite Hq;
      cbn [bind]; rewrite Htruthy; cbn [andb negb String.eqb get];
      (destruct Hh as [Hh|(v & Hh & Hv)]; rewrite Hh; cbn [bind];
       rewrite ?Hv; reflexivity).
  - intros base -> Hbase Hjoin Hhttp. rewrite init_explicit by assumption.
    apply String.eqb_neq in Hjoin. now rewrite Hjoin, Hhttp.
Qed.

Section Requests.

Variable requests_request :
  string -> string -> option json -> result response.

(** X17. A client built without a response handler checks the status
    code of every response: a request returns the response of the server
    as it is when its status code is outside the range from 400 to 599,
    raises [HTTPError] when it is inside, and lets an error of the
    transport through. *)
Theorem default_client_checks_status get_config u c method target payload :
  init urljoin QCS_API_VERSION get_config None u = Ok c ->
  request requests_request c method target payload =
  match requests_request method target payload with
  | Raise e => Raise e
  | Ok r =>
      if (400 <=? status_code r) && (status_code r <? 600)
      then Raise (HTTPError (status_code r))
      else Ok (Response r)
  end.
Proof.
  intros Hinit. apply init_url in Hinit as (_ & _ & Hhandler & _).
  unfold request. rewrite Hhandler.
  destruct (requests_request method target payload) as [r|e]; [|reflexivity].
  cbn [bind]. unfold code_handler, raise_for_status.
  now destruct ((400 <=? status_code r) && (status_code r <? 600)).
Qed.

End Requests.

End Facts.

Lemma init_url_example :
  contains "http" "http://qcs.example.com:8000/api/v1/" = true.
Proof.
  apply (init_url example_urljoin "/api/v1/" (Ok Config.example_config) None
           None
           {| url := "http://qcs.example.com:8000/api/v1/";
              response_handler := code_handler |}).
  reflexivity.
Defined.

Lemma init_url_argument_wins_example :
  init example_urljoin "/api/v1/" (Ok (JDict [("qcs", JInt 3)])) None
    (Some "https://other.example.com")
  = Ok {| url := "https://other.example.com/api/v1/";
          response_handler := code_handler |}.
Proof.
  apply (init_url_argument_wins example_urljoin "/api/v1/"
           [("qcs", JInt 3)] None "https://other.example.com").
  - discriminate.
  - reflexivity.
Defined.

Lemma init_errors_example :
  init example_urljoin "/api/v1/"
    (Ok (JDict [("qcs", JDict [("sources", JList [])])])) None None
  = Raise (QCSBaseUrlNotFound no_hostname_message).
Proof.
  destruct (init_errors example_urljoin "/api/v1/"
              [("qcs", JDict [("sources", JList [])])] None None
              ConfigFileNotFoundError) as (_ & _ & Hhostname & _).
  apply (Hhostname [("sources", JList [])]).
  - left. reflexivity.
  - reflexivity.
  - discriminate.
  - left. reflexivity.
Defined.

Lemma default_client_checks_status_example :
  request (example_transport 404)
    {| url := "http://qcs.example.com:8000/api/v1/";
       response_handler := code_handler |}
    "GET" "http://qcs.example.com:8000/api/v1/scans/" None
  = Raise (HTTPError 404).
Proof.
  apply (default_client_checks_status example_urljoin "/api/v1/"
           (example_transport 404) (Ok Config.example_config) None
           {| url := "http://qcs.example.com:8000/api/v1/";
              response_handler := code_handler |}
           "GET" "http://qcs.example.com:8000/api/v1/scans/" None).
  reflexivity.
Defined.

End ClientFacts.

(* ===================================================================== *)
(** ** More about the waiters: running out of budget, and what is raised *)
(* ===================================================================== *)

Module WaiterFacts.

Import Py Sim Runs Views PyFacts.
Local Open Scope string_scope.
Local Open Scope Z_scope.

Section Facts.

Variable pformat : dict -> string.
Variable scan_job : string -> world -> reply dict.

Lemma fold_left_last (rs : list dict) (result : option dict) :
  rs <> [] ->
  fold_left (fun _ r => Some r) rs result = Some (last rs []).
Proof.
  revert result. induction rs as [|r rs IH]; intros result Hne; [congruence|].
  destruct rs as [|r' rs]; [reflexivity|].
  cbn [fold_left]. cbn [fold_left] in IH.
  rewrite (IH (Some r)) by discriminate. reflexivity.
Qed.

(** X18. A scan that is neither in the status waited for nor failed at
    any of the [ceil(timeout / 5)] polls that the budget pays for makes
    [wait_for_scan] raise [WaitTimeError] after exactly that many polls
    and sleeps. The message shows the record of the last poll; the status
    of the scan after the last sleep is not looked at. *)
Theorem wait_for_scan_times_out id status rs timeout w :
  answers scan_job id rs w ->
  Forall (pending status) rs ->
  0 < timeout ->
  Z.of_nat (List.length rs) = cycles timeout ->
  exists msg,
    format Cli.timeout_template [id; status; pformat (last rs [])] = Ret msg /\
    Cli.wait_for_scan pformat scan_job id status timeout w
    = (Exc (WaitTimeError msg), waited id rs w) /\
    polls (waited id rs w) = (polls w + List.length rs)%nat /\
    sleeps (waited id rs w) = (sleeps w + List.length rs)%nat.
Proof.
  intros Hans Hpend Hpos Hlen. pose proof (cycles_ceil timeout).
  assert (Hne : rs <> [])
    by (intros ->; pose proof (cycles_pos timeout Hpos); cbn in Hlen; lia).
  destruct (CliFacts.format_timeout id status (pformat (last rs [])))
    as [msg Hmsg].
  exists msg. split; [exact Hmsg|]. split.
  - unfold Cli.wait_for_scan.
    rewrite (CliFacts.wait_for_scan_from_waited pformat scan_job id status rs
               None timeout w Hans Hpend) by lia.
    rewrite CliFacts.wait_for_scan_from_eq.
    destruct (Z.ltb_spec 0 (timeout - 5 * Z.of_nat (List.length rs))); [lia|].
    rewrite fold_left_last by assumption.
    unfold Cli.raise_timeout, bind, lift, raise. now rewrite Hmsg.
  - split; [apply CliFacts.polls_waited|apply CliFacts.sleeps_waited].
Qed.

(** X19. A record without the key ['status'] ends [wait_for_scan] with
    [KeyError] for ['status'] at the poll that returns it. *)
Theorem wait_for_scan_missing_status id status rs r timeout w :
  answers scan_job id rs w ->
  Forall (pending status) rs ->
  scan_job id (waited id rs w) = Reply r ->
  Py.get r "status" = None ->
  5 * Z.of_nat (List.length rs) < timeout ->
  Cli.wait_for_scan pformat scan_job id status timeout w
  = (Exc (KeyError "status"), EvScanJob id (Reply r) :: waited id rs w).
Proof.
  intros Hans Hpend Hr Hget Hbudget. unfold Cli.wait_for_scan.
  rewrite (CliFacts.wait_for_scan_from_waited pformat scan_job id status rs
             None timeout w Hans Hpend) by lia.
  rewrite CliFacts.wait_for_scan_from_eq.
  destruct (Z.ltb_spec 0 (timeout - 5 * Z.of_nat (List.length rs))); [|lia].
  unfold Cli.poll, bind, call, getitem, ret, raise. rewrite Hr, Hget.
  now destruct (negb (status =? "failed")%string).
Qed.

(** X20. What [wait_for_scan] can raise. It never ends in an error of
    [format]. A [KeyError] is for ['status']. The unbound-variable error
    is for [result], and needs a budget that is not positive.
    [FailedScanException] needs a status waited for other than [failed],
    and a last poll whose record has the status [failed]; that record is
    the one in the message. *)
Theorem wait_for_scan_raises id status timeout w :
  match fst (Cli.wait_for_scan pformat scan_job id status timeout w) with
  | Exc (IndexError _) | Exc (ValueError _) => False
  | Exc (KeyError key) => key = "status"
  | Exc (UnboundLocalError name) => name = "result" /\ timeout <= 0
  | Exc (FailedScanException msg) =>
      status <> "failed"%string /\
      exists r rest,
        snd (Cli.wait_for_scan pformat scan_job id status timeout w)
        = EvScanJob id (Reply r) :: rest /\
        scan_job id rest = Reply r /\
        Py.get r "status" = Some (PyStr "failed") /\
        format Cli.failed_template [id; pformat r] = Ret msg
  | _ => True
  end.
Proof.
  unfold Cli.wait_for_scan.
  assert (Hgen : forall result,
    match fst (Cli.wait_for_scan_from pformat scan_job result id status
                 timeout w) with
    | Exc (IndexError _) | Exc (ValueError _) => False
    | Exc (KeyError key) => key = "status"
    | Exc (UnboundLocalError name) =>
        name = "result" /\ timeout <= 0 /\ result = None
    | Exc (FailedScanException msg) =>
        status <> "failed"%string /\
        exists r rest,
          snd (Cli.wait_for_scan_from pformat scan_job result id status
                 timeout w)
          = EvScanJob id (Reply r) :: rest /\
          scan_job id rest = Reply r /\
          Py.get r "status" = Some (PyStr "failed") /\
          format Cli.failed_template [id; pformat r] = Ret msg
    | _ => True
    end).
  { intros result.
    apply CliFacts.wait_for_scan_from_run
      with (P := fun result timeout w x =>
        match fst x with
        | Exc (IndexError _) | Exc (ValueError _) => False
        | Exc (KeyError key) => key = "status"
        | Exc (UnboundLocalError name) =>
            name = "result" /\ timeout <= 0 /\ result = None
        | Exc (FailedScanException msg) =>
            status <> "failed"%string /\
            exists r rest,
              snd x = EvScanJob id (Reply r) :: rest /\
              scan_job id rest = Reply r /\
              Py.get r "status" = Some (PyStr "failed") /\
              format Cli.failed_template [id; pformat r] = Ret msg
        | _ => True
        end); clear result timeout w.
    - intros result t w Ht.
      destruct (CliFacts.raise_timeout_cases pformat id status result w)
        as [[-> ->]|(r & msg & _ & _ & ->)]; cbn; [now repeat split|exact I].
    - intros result t w e w1 _ Hpoll.
      pose proof (CliFacts.poll_cases pformat scan_job id status w) as Hv.
      rewrite Hpoll in Hv. inversion Hv; subst; cbn; trivial.
      split; [assumption|]. exists r, w. repeat split; trivial.
      match goal with
      | H : eq_str ?s "failed" = true |- _ => apply eq_str_true in H as ->
      end.
      assumption.
    - intros; exact I.
    - intros result t w r w1 _ _. cbn [fst snd].
      match goal with
      | |- match ?o with _ => _ end -> _ => destruct o as [[]|[]]
      end; trivial.
      intros (_ & _ & [=]). }
  specialize (Hgen None). revert Hgen.
  match goal with
  | |- match ?o with _ => _ end -> _ => destruct o as [[]|[]]
  end; trivial.
  tauto.
Qed.

Section Timeline.

Variable scan : Api.Scan.
Variable job : nat -> value.
Hypothesis status_job :
  forall w, Api.status scan w = Reply (job (sleeps w)).
Hypothesis read_replies : forall w, exists d, Api.read scan w = Reply d.
Hypothesis results_reply : forall w, exists r, Api.results scan w = Reply r.

(** X21. A scan that is neither in the state waited for nor failed at
    any of the [ceil(timeout / 5)] loop tests that the budget pays for
    makes [wait_until_state] raise [WaitTimeError] after exactly that
    many sleeps. The status of the scan after the last sleep goes into
    the message and is not compared with the state waited for: the error
    is raised also when the scan has reached the state (or has failed)
    during that sleep. *)
Theorem wait_until_state_times_out state m :
  forall timeout w,
    (forall k, (k <= m)%nat -> unsettled state (job (sleeps w + k)%nat)) ->
    5 * Z.of_nat m < timeout <= 5 * Z.of_nat (S m) ->
    exists msg d r w',
      Api.wait_until_state pformat scan timeout state w
      = (Exc (WaitTimeError msg), w') /\
      sleeps w' = (sleeps w + S m)%nat /\
      Z.of_nat (S m) = cycles timeout /\
      format Api.timed_out_template
        [str (Api._id scan); state; str (job (sleeps w + S m)%nat);
         pformat d; pformat r] = Ret msg.
Proof.
  induction m as [|m IH]; intros timeout w Hbefore Hbudget;
    destruct (ApiFacts.not_in_state_timeline scan job status_job state w)
      as (u & Htest & Hn & _);
    assert (Hnow : in_state state (job (sleeps w)) = false)
      by (destruct (Hbefore 0%nat ltac:(lia)) as [Hne _];
          rewrite Nat.add_0_r in Hne; unfold in_state; rewrite Hne;
          apply andb_false_r);
    rewrite ApiFacts.wait_until_state_eq, Htest, Hnow; cbn [negb];
    (destruct (Z.ltb_spec 0 timeout); [|lia]);
    assert (Hs1 : sleeps (EvSleep 5 :: u ++ w) = S (sleeps w))
      by (change (EvSleep 5 :: u ++ w)%list
            with ([EvSleep 5] ++ u ++ w)%list;
          rewrite !sleeps_app, Hn; reflexivity).
  - (* the last cycle *)
    unfold Api.cycle, bind at 1 2, sleep.
    destruct (Z.leb_spec (timeout - 5) 0); [|lia].
    unfold Api.raise_timed_out, bind, call, lift, raise.
    rewrite status_job, Hs1.
    destruct (read_replies
                (EvStatus (Reply (job (S (sleeps w)))) :: EvSleep 5 :: u ++ w))
      as [d ->].
    destruct (results_reply
                (EvRead (Reply d) :: EvStatus (Reply (job (S (sleeps w))))
                   :: EvSleep 5 :: u ++ w)) as [r ->].
    destruct (ApiFacts.format_timed_out (str (Api._id scan)) state
                (str (job (S (sleeps w)))) (pformat d) (pformat r))
      as [msg Hmsg].
    rewrite Hmsg. exists msg, d, r. eexists. split; [reflexivity|].
    split; [|split].
    + change (sleeps (EvResults ?a :: EvRead ?b :: EvStatus ?c :: ?x))
        with (sleeps x).
      rewrite Hs1. lia.
    + pose proof (cycles_ceil timeout). lia.
    + now rewrite Nat.add_1_r.
  - (* a cycle before the last *)
    rewrite ApiFacts.cycle_in_budget by lia.
    destruct (ApiFacts.raise_if_failed_timeline scan job status_job state
                (EvSleep 5 :: u ++ w)) as (v & Hcheck & Hn' & _).
    { right. rewrite Hs1. destruct (Hbefore 1%nat ltac:(lia)) as [_ Hnf].
      now rewrite Nat.add_1_r in Hnf. }
    rewrite Hcheck.
    destruct (IH (timeout - 5) (v ++ EvSleep 5 :: u ++ w)%list)
      as (msg & d & r & w' & Hrun & Hsl & Hcyc & Hmsg).
    + intros k Hk. rewrite sleeps_app, Hn', Hs1.
      replace (0 + S (sleeps w) + k)%nat with (sleeps w + S k)%nat by lia.
      apply Hbefore. lia.
    + lia.
    + exists msg, d, r, w'. split; [exact Hrun|].
      rewrite sleeps_app, Hn', Hs1 in Hsl, Hmsg.
      split; [lia|]. split.
      * rewrite (cycles_step timeout). lia.
      * now replace (sleeps w + S (S m))%nat
          with (0 + S (sleeps w) + S m)%nat by lia.
Qed.

End Timeline.

(** X22. [wait_until_state] ends in the [IndexError] of [format] only
    through its branch for a failed scan: the state waited for is not
    [failed], the last thing the run did was to read the status after a
    sleep, and that status was [failed]. In particular a waiter for the
    state [failed] never ends in it. *)
Theorem wait_until_state_index_error scan timeout state w n :
  fst (Api.wait_until_state pformat scan timeout state w)
  = Exc (IndexError n) ->
  n = 2%nat /\
  state <> "failed"%string /\
  exists rest,
    snd (Api.wait_until_state pformat scan timeout state w)
    = EvStatus (Reply (PyStr "failed")) :: EvSleep 5 :: rest /\
    Api.status scan (EvSleep 5 :: rest) = Reply (PyStr "failed").
Proof.
  apply ApiFacts.wait_until_state_run
    with (P := fun (timeout : Z) (w : world) x =>
      fst x = Exc (IndexError n) ->
      n = 2%nat /\
      state <> "failed"%string /\
      exists rest,
        snd x = EvStatus (Reply (PyStr "failed")) :: EvSleep 5 :: rest /\
        Api.status scan (EvSleep 5 :: rest) = Reply (PyStr "failed"));
    clear timeout w.
  - intros t w e w1 Htest.
    pose proof (ApiFacts.not_in_state_cases scan state w) as Hv.
    rewrite Htest in Hv. inversion Hv; subst; discriminate.
  - intros; discriminate.
  - intros; discriminate.
  - intros t w w1 e w2 _ _ Hcycle.
    pose proof (ApiFacts.cycle_cases pformat scan t state w1) as Hv.
    rewrite Hcycle in Hv. inversion Hv; subst; try discriminate.
    intros [= <-].
    match goal with
    | H : eq_str ?s "failed" = true |- _ => apply eq_str_true in H; subst s
    end.
    repeat split; trivial. now exists w1.
  - intros t w w1 w2 _ _ _ IH. exact IH.
Qed.

End Facts.

Lemma wait_for_scan_times_out_scenario_b :
  exists msg,
    Cli.wait_for_scan show (cli_mock ["running"; "running"; "running"]) "1"
      "completed" 10 []
    = (Exc (WaitTimeError msg),
       [EvSleep 5; EvScanJob "1" (Reply (job "running"));
        EvSleep 5; EvScanJob "1" (Reply (job "running"))]).
Proof.
  destruct (wait_for_scan_times_out show
              (cli_mock ["running"; "running"; "running"]) "1" "completed"
              [job "running"; job "running"] 10 [])
    as (msg & _ & Hrun & _).
  - repeat split.
  - repeat constructor; exists (PyStr "running"); repeat split.
  - lia.
  - reflexivity.
  - exists msg. exact Hrun.
Defined.

Lemma wait_for_scan_missing_status_example :
  Cli.wait_for_scan show (fun _ _ => Reply [("id", PyInt 1)]) "1"
    "completed" 900 []
  = (Exc (KeyError "status"), [EvScanJob "1" (Reply [("id", PyInt 1)])]).
Proof.
  apply (wait_for_scan_missing_status show
           (fun _ _ => Reply [("id", PyInt 1)]) "1" "completed" []
           [("id", PyInt 1)] 900 []).
  - exact I.
  - constructor.
  - reflexivity.
  - reflexivity.
  - cbn. lia.
Defined.

Lemma wait_until_state_times_out_while_completing :
  exists msg d r w',
    Api.wait_until_state show
      (api_job (fun t => match t with
                         | O => PyStr "running"
                         | S _ => PyStr "completed"
                         end)) 5 "completed" []
    = (Exc (WaitTimeError msg), w') /\
    format Api.timed_out_template
      ["7"; "completed"; "completed"; show d; show r] = Ret msg.
Proof.
  destruct (wait_until_state_times_out show
              (api_job (fun t => match t with
                                 | O => PyStr "running"
                                 | S _ => PyStr "completed"
                                 end))
              (fun t => match t with
                        | O => PyStr "running"
                        | S _ => PyStr "completed"
                        end)
              (fun w => eq_refl)
              (fun w => ex_intro _ (job "unknown") eq_refl)
              (fun w => ex_intro _ [] eq_refl)
              "completed" 0%nat 5 [])
    as (msg & d & r & w' & Hrun & _ & _ & Hmsg).
  - intros [|k] Hk; [|lia]. split; reflexivity.
  - cbn. lia.
  - exists msg, d, r, w'. split; [exact Hrun|exact Hmsg].
Defined.

Lemma wait_until_state_index_error_example :
  exists rest,
    snd (Api.wait_until_state show (api_job running_then_failed) 120
           "completed" [])
    = EvStatus (Reply (PyStr "failed")) :: EvSleep 5 :: rest.
Proof.
  destruct (wait_until_state_index_error show (api_job running_then_failed)
              120 "completed" [] 2%nat) as (_ & _ & rest & Hsnd & _).
  - vm_compute. reflexivity.
  - exists rest. exact Hsnd.
Defined.

End WaiterFacts.
